(** * The corner-kick Play: a shallow embedding of [corner_kick_play.cpp]

    The Play is a stackful coroutine: [getNextTactics] runs until it yields a
    vector of tactics, is suspended, and is resumed on the next tick with the
    [world] reference showing the new snapshot.  Here the coroutine is an
    explicit transition function [resume] from the suspended program point
    and the tick's observations to the next program point and the calls made
    in between, in program order.

    Numbers.  A C++ [double] is read as a real number: arithmetic is exact,
    there is no NaN, no infinity and no rounding.  Every statement below
    that goes through a quotient assumes its divisor is positive. *)

From Stdlib Require Import Reals Lra List Bool Lia.
Import ListNotations.
Open Scope R_scope.

(** ** Comparisons and [std::min] on doubles *)

Definition double := R.

Definition ltb (a b : double) : bool := if Rlt_dec a b then true else false.
Definition leb (a b : double) : bool := if Rle_dec a b then true else false.
Definition gtb (a b : double) : bool := ltb b a.

(** [std::min(a, b)] is [(b < a) ? b : a]. *)
Definition std_min (a b : double) : double := if ltb b a then b else a.

(** [copysign(m, s)]: the magnitude of [m] with the sign of [s]. *)
Definition copysign (m s : double) : double :=
  if ltb s 0 then - Rabs m else Rabs m.

(** ** Geometry: [Point], [Vector], [Rectangle] *)

Record Point := mkPoint { px : double; py : double }.
Record Vector := mkVector { vx : double; vy : double }.

Definition toVector (p : Point) : Vector := mkVector (px p) (py p).
(** [Point - Point] *)
Definition psub (a b : Point) : Vector := mkVector (px a - px b) (py a - py b).
(** [Point - Vector] and [Point + Vector] *)
Definition pminus (a : Point) (v : Vector) : Point := mkPoint (px a - vx v) (py a - vy v).
Definition pplus (a : Point) (v : Vector) : Point := mkPoint (px a + vx v) (py a + vy v).
(** [Vector - Vector], [Vector + Vector] and scaling *)
Definition vsub (a b : Vector) : Vector := mkVector (vx a - vx b) (vy a - vy b).
Definition vadd (a b : Vector) : Vector := mkVector (vx a + vx b) (vy a + vy b).
Definition vscale (k : double) (v : Vector) : Vector := mkVector (k * vx v) (k * vy v).

(** [Vector::length()]: the Euclidean norm. *)
Definition length (v : Vector) : double := sqrt (vx v * vx v + vy v * vy v).

Record Rectangle := mkRectangle { corner_a : Point; corner_b : Point }.
(** [Rectangle::yLength()]: the extent of the rectangle along y. *)
Definition yLength (r : Rectangle) : double := Rabs (py (corner_b r) - py (corner_a r)).

Definition Angle := double.

(** ** The world snapshot *)

Definition RobotId := nat.
Definition Timestamp := double.
Definition Duration := double.
Definition getSeconds (d : Duration) : double := d.
Definition fromSeconds (s : double) : Duration := s.

Record Robot := mkRobot { id : RobotId; position : Point }.
Record Team := mkTeam { getAllRobots : list Robot }.
Record Ball := mkBall { ball_position : Point; ball_velocity : Vector }.

Record Field := mkField {
  enemyCornerPos : Point;
  enemyCornerNeg : Point;
  enemyGoalCenter : Point;
  enemyDefenseArea : Rectangle;
  centerPoint : Point;
  field_yLength : double
}.

(** Modelled from the spec: [GameState] is declared outside the sources at
    hand.  The spec speaks of a game-state tag that is "playing", "ready" or
    neither, and that may mark "an awarded free kick" for the team or for the
    opposing team; the tag and the holder of the free kick are kept as two
    independent fields. *)
Inductive RefereeState := HALT | STOP | SETUP | READY | PLAYING.
Inductive TeamSide := FRIENDLY | ENEMY.

Record GameState := mkGameState {
  state : RefereeState;
  free_kick : option TeamSide
}.

Definition isPlaying (g : GameState) : bool :=
  match state g with PLAYING => true | _ => false end.
Definition isReadyState (g : GameState) : bool :=
  match state g with READY => true | _ => false end.
Definition isOurFreeKick (g : GameState) : bool :=
  match free_kick g with Some FRIENDLY => true | _ => false end.
Definition isTheirFreeKick (g : GameState) : bool :=
  match free_kick g with Some ENEMY => true | _ => false end.

Record World := mkWorld {
  field : Field;
  ball : Ball;
  friendlyTeam : Team;
  enemyTeam : Team;
  gameState : GameState;
  getMostRecentTimestamp : Timestamp
}.

(** ** Passes and the pass generator's answers *)

Inductive PassType := RECEIVE_AND_DRIBBLE | ONE_TOUCH_SHOT.

(** Modelled from the spec: [Pass] is declared outside the sources at hand;
    the spec lists a receiver target point, a passer origin, a nominal ball
    speed and a pass archetype tag. *)
Record Pass := mkPass {
  receiverPoint : Point;
  passerPoint : Point;
  speed : double;
  archetype : PassType
}.

Record PassWithRating := mkPassWithRating { pass : Pass; rating : double }.

Module CornerKickPlay.

(** ** The two predicates the selector evaluates *)

Section Predicates.

(** [BALL_IN_CORNER_RADIUS] is a constant of the class declaration. *)
Variable BALL_IN_CORNER_RADIUS : double.

(** The possession evaluations of [software/ai/evaluation/possession.h]. *)
Variable teamHasPossession : World -> Team -> bool.
Variable teamPassInProgress : World -> Team -> bool.

Definition min_dist_to_corner (world : World) : double :=
  std_min (length (psub (enemyCornerPos (field world)) (ball_position (ball world))))
          (length (psub (enemyCornerNeg (field world)) (ball_position (ball world)))).

Definition isApplicable (world : World) : bool :=
  isOurFreeKick (gameState world) &&
  leb (min_dist_to_corner world) BALL_IN_CORNER_RADIUS.

Definition invariantHolds (world : World) : bool :=
  (isPlaying (gameState world) || isReadyState (gameState world)) &&
  (negb (teamHasPossession world (enemyTeam world)) ||
   teamPassInProgress world (friendlyTeam world)).

(** The ball lies within the corner radius of one of the attacking corners. *)
Definition ball_in_corner (world : World) : Prop :=
  length (psub (enemyCornerPos (field world)) (ball_position (ball world)))
    <= BALL_IN_CORNER_RADIUS \/
  length (psub (enemyCornerNeg (field world)) (ball_position (ball world)))
    <= BALL_IN_CORNER_RADIUS.

End Predicates.

(** ** The coroutine [getNextTactics] / [setupPass] *)

(** The tactic objects the Play creates.  They are shared pointers: a yielded
    vector holds references to them, so a tactic is named, not copied. *)
Inductive TacticRef :=
| goalie_tactic
| align_to_ball_tactic
| cherry_pick_tactic_pos_y
| cherry_pick_tactic_neg_y
| bait_move_tactic_1
| bait_move_tactic_2
| passer
| receiver.

(** The calls the Play makes on its collaborators, as the source names them. *)
Inductive Call :=
| NewGoalieTactic (b : Ball) (f : Field) (friendly enemy : Team)
| NewMoveTactic (t : TacticRef) (loop_forever : bool)
| NewCherryPickTactic (t : TacticRef) (w : World) (target_region : Rectangle)
| NewPasserTactic (p : Pass) (b : Ball) (f : Field) (loop_forever : bool)
| NewReceiverTactic (f : Field) (friendly enemy : Team) (p : Pass) (b : Ball)
    (loop_forever : bool)
| NewPassGenerator (w : World) (passer_point : Point) (pass_type : PassType)
| MoveUpdateControlParams (t : TacticRef) (destination : Point)
    (final_orientation : Angle) (final_speed : double)
| PasserUpdateControlParams (p : Pass)
| ReceiverUpdateControlParams (p : Pass)
| setTargetRegion (r : Rectangle)
| setPasserRobotId (robot_id : RobotId)
| setWorld (w : World)
| setPasserPoint (p : Point)
| getBestPassSoFar.

(** What one resumption observes: the snapshot behind the [world] reference,
    and the answers of the objects the Play queries while it runs
    ([align_to_ball_tactic->getAssignedRobot()], [align_to_ball_tactic->done()],
    [receiver->done()], [pass_generator.getBestPassSoFar()]).  The Play is
    single-threaded between two yields, so each answer is fixed for the tick. *)
Record Tick := mkTick {
  world : World;
  getAssignedRobot : option Robot;
  align_done : bool;
  receiver_done : bool;
  best_pass_so_far : PassWithRating
}.

(** Where the coroutine is suspended, with the locals that are read again
    after the suspension.  ([min_score] and [best_pass_and_score_so_far] are
    overwritten after each resumption before they are read.) *)
Inductive ProgramPoint :=
| Entry
| WaitingForRobot
| Aligning
| Deciding (commit_stage_start_time : Timestamp)
| Executing (committed : Pass)
| Finished.

(** One resumption: the program point reached, the calls made on the way and
    the vector yielded ([None] when the coroutine returned). *)
Record Step := mkStep {
  next : ProgramPoint;
  calls : list Call;
  yielded : option (list TacticRef)
}.

Definition align_stage_tactics : list TacticRef :=
  [goalie_tactic; align_to_ball_tactic; cherry_pick_tactic_pos_y;
   cherry_pick_tactic_neg_y; bait_move_tactic_1; bait_move_tactic_2].

Definition execute_stage_tactics : list TacticRef :=
  [goalie_tactic; passer; receiver; bait_move_tactic_1; bait_move_tactic_2].

Section Play.

(** [Vector::normalize(double)] and [Vector::orientation()] belong to the
    geometry library, [ROBOT_MAX_RADIUS_METERS] to [shared/constants.h]. *)
Variable normalize : Vector -> double -> Vector.
Variable orientation : Vector -> Angle.
Variable ROBOT_MAX_RADIUS_METERS : double.

(** The member set by the constructor from [MaxTimeCommitToPassSeconds]. *)
Variable MAX_TIME_TO_COMMIT_TO_PASS : Duration.

Definition ball_to_center_vec (w : World) : Vector :=
  vsub (mkVector 0 0) (toVector (ball_position (ball w))).

Definition align_destination (w : World) : Point :=
  pminus (ball_position (ball w))
         (normalize (ball_to_center_vec w) (ROBOT_MAX_RADIUS_METERS * 2)).

Definition updateAlignToBallTactic (w : World) : list Call :=
  [MoveUpdateControlParams align_to_ball_tactic
     (align_destination w) (orientation (ball_to_center_vec w)) 0].

Definition updatePassGenerator (w : World) : list Call :=
  [setWorld w; setPasserPoint (ball_position (ball w))].

(** The body shared by the three loops of [setupPass], up to its yield. *)
Definition loop_body (w : World) : list Call :=
  updateAlignToBallTactic w ++ updatePassGenerator w.

(** The acceptance threshold of one Decide iteration (l.202-206). *)
Definition min_score_after (time_since_commit_stage_start : Duration) : double :=
  1 - std_min (getSeconds time_since_commit_stage_start /
               getSeconds MAX_TIME_TO_COMMIT_TO_PASS) 1.

(** [getNextTactics] from its entry to the call of [setupPass] (l.63-85). *)
Definition opposite_corner_to_kick (w : World) : Point :=
  if gtb (py (ball_position (ball w))) 0
  then enemyCornerNeg (field w) else enemyCornerPos (field w).

Definition bait_move_tactic_pos (w : World) (k : double) : Point :=
  pminus (opposite_corner_to_kick w)
         (mkVector (yLength (enemyDefenseArea (field w)) * k)
                   (copysign (1/2) (py (opposite_corner_to_kick w)))).

Definition setup_tactics (w : World) : list Call :=
  [NewGoalieTactic (ball w) (field w) (friendlyTeam w) (enemyTeam w);
   NewMoveTactic bait_move_tactic_1 true;
   NewMoveTactic bait_move_tactic_2 true;
   MoveUpdateControlParams bait_move_tactic_1 (bait_move_tactic_pos w (1/2))
     (orientation (psub (enemyGoalCenter (field w)) (bait_move_tactic_pos w (1/2)))) 0;
   MoveUpdateControlParams bait_move_tactic_2 (bait_move_tactic_pos w (3/2))
     (orientation (psub (enemyGoalCenter (field w)) (bait_move_tactic_pos w (3/2)))) 0].

(** [setupPass] from its entry to the first loop (l.116-153). *)
Definition pos_y_goalline_x_offset (w : World) : Vector :=
  let v := mkVector (yLength (enemyDefenseArea (field w))) 0 in
  if gtb (py (ball_position (ball w))) 0
  then vadd v (mkVector (yLength (enemyDefenseArea (field w))) 0) else v.

Definition neg_y_goalline_x_offset (w : World) : Vector :=
  let v := mkVector (yLength (enemyDefenseArea (field w))) 0 in
  if gtb (py (ball_position (ball w))) 0
  then v else vadd v (mkVector (yLength (enemyDefenseArea (field w))) 0).

Definition center_line_x_offset : Vector := mkVector 1 0.

Definition pos_y_cherry_pick_rectangle (w : World) : Rectangle :=
  mkRectangle (pplus (centerPoint (field w)) center_line_x_offset)
              (pminus (enemyCornerPos (field w)) (pos_y_goalline_x_offset w)).

Definition neg_y_cherry_pick_rectangle (w : World) : Rectangle :=
  mkRectangle (pplus (centerPoint (field w)) center_line_x_offset)
              (pminus (enemyCornerNeg (field w)) (neg_y_goalline_x_offset w)).

Definition setup_pass_generator (w : World) : list Call :=
  [NewMoveTactic align_to_ball_tactic false;
   NewCherryPickTactic cherry_pick_tactic_pos_y w (pos_y_cherry_pick_rectangle w);
   NewCherryPickTactic cherry_pick_tactic_neg_y w (neg_y_cherry_pick_rectangle w);
   NewPassGenerator w (ball_position (ball w)) ONE_TOUCH_SHOT;
   setTargetRegion
     (mkRectangle (mkPoint 1 (field_yLength (field w) / 2)) (enemyCornerNeg (field w)));
   getBestPassSoFar].

(** The head of the first loop (l.156): reached from the entry and from the
    yield of l.162.  [before] are the calls already made in this resumption.
    When a robot is assigned the loop is left, the passer is registered
    (l.168) and the do-while of l.174 runs its body once and yields. *)
Definition wait_for_robot (before : list Call) (tk : Tick) : Step :=
  match getAssignedRobot tk with
  | None =>
      mkStep WaitingForRobot (before ++ loop_body (world tk)) (Some align_stage_tactics)
  | Some robot =>
      mkStep Aligning
             (before ++ setPasserRobotId (id robot) :: loop_body (world tk))
             (Some align_stage_tactics)
  end.

(** Resumed in the yield of l.179: the condition of l.181, then either the
    body of that loop again, or l.188-189 and the first body of the Decide
    loop. *)
Definition aligning (tk : Tick) : Step :=
  if negb (align_done tk)
  then mkStep Aligning (loop_body (world tk)) (Some align_stage_tactics)
  else mkStep (Deciding (getMostRecentTimestamp (world tk)))
              (loop_body (world tk)) (Some align_stage_tactics).

(** [getNextTactics] after [setupPass] has returned [p] (l.91-101). *)
Definition start_executing (before : list Call) (p : Pass) (w : World) : Step :=
  mkStep (Executing p)
         (before ++
          [NewPasserTactic p (ball w) (field w) false;
           NewReceiverTactic (field w) (friendlyTeam w) (enemyTeam w) p (ball w) false;
           PasserUpdateControlParams p;
           ReceiverUpdateControlParams p])
         (Some execute_stage_tactics).

(** Resumed in the yield of l.195: l.198-207, then the body again or the
    commit of l.210 and the return to [getNextTactics]. *)
Definition deciding (commit_stage_start_time : Timestamp) (tk : Tick) : Step :=
  let best_pass_and_score_so_far := best_pass_so_far tk in
  let time_since_commit_stage_start : Duration :=
    getMostRecentTimestamp (world tk) - commit_stage_start_time in
  let min_score := min_score_after time_since_commit_stage_start in
  if ltb (rating best_pass_and_score_so_far) min_score
  then mkStep (Deciding commit_stage_start_time)
              (getBestPassSoFar :: loop_body (world tk))
              (Some align_stage_tactics)
  else start_executing [getBestPassSoFar] (pass best_pass_and_score_so_far) (world tk).

(** Resumed in the yield of l.101: the condition of l.102. *)
Definition executing (p : Pass) (tk : Tick) : Step :=
  if negb (receiver_done tk)
  then mkStep (Executing p)
              [PasserUpdateControlParams p; ReceiverUpdateControlParams p]
              (Some execute_stage_tactics)
  else mkStep Finished [] None.

Definition resume (pp : ProgramPoint) (tk : Tick) : Step :=
  match pp with
  | Entry =>
      wait_for_robot (setup_tactics (world tk) ++ setup_pass_generator (world tk)) tk
  | WaitingForRobot => wait_for_robot [] tk
  | Aligning => aligning tk
  | Deciding commit_stage_start_time => deciding commit_stage_start_time tk
  | Executing p => executing p tk
  | Finished => mkStep Finished [] None
  end.

(** The Play driven over successive ticks: the steps taken, oldest first. *)
Fixpoint run (pp : ProgramPoint) (ticks : list Tick) : list Step :=
  match ticks with
  | [] => []
  | tk :: rest => let s := resume pp tk in s :: run (next s) rest
  end.

(** The program point after the ticks. *)
Definition final (pp : ProgramPoint) (ticks : list Tick) : ProgramPoint :=
  fold_left (fun p tk => next (resume p tk)) ticks pp.

(** ** Vocabulary of the properties *)

(** The Play is suspended in one of the loops of [setupPass]. *)
Definition in_setupPass (pp : ProgramPoint) : bool :=
  match pp with
  | WaitingForRobot | Aligning | Deciding _ => true
  | _ => false
  end.

(** [setupPass] has returned: a pass has been committed to. *)
Definition has_committed (pp : ProgramPoint) : bool :=
  match pp with
  | Executing _ | Finished => true
  | _ => false
  end.

(** The first loop of [setupPass] has been left. *)
Definition robot_was_assigned (pp : ProgramPoint) : bool :=
  match pp with
  | Entry | WaitingForRobot => false
  | _ => true
  end.

Definition all_calls (steps : list Step) : list Call := flat_map calls steps.

(** The robot ids handed to [setPasserRobotId], in order. *)
Fixpoint passer_registrations (cs : list Call) : list RobotId :=
  match cs with
  | [] => []
  | setPasserRobotId robot_id :: rest => robot_id :: passer_registrations rest
  | _ :: rest => passer_registrations rest
  end.

(** Every [getBestPassSoFar] among the calls comes after [setWorld w] and
    [setPasserPoint] of the ball of [w]. *)
Definition read_follows_push (w : World) (cs : list Call) : Prop :=
  forall before after, cs = before ++ getBestPassSoFar :: after ->
    In (setWorld w) before /\ In (setPasserPoint (ball_position (ball w))) before.

(** The stages in the order of the source: setup, the three loops of
    [setupPass], the Execute loop, the end. *)
Definition stage_rank (pp : ProgramPoint) : nat :=
  match pp with
  | Entry => 0
  | WaitingForRobot => 1
  | Aligning => 2
  | Deciding _ => 3
  | Executing _ => 4
  | Finished => 5
  end.

(** The calls of l.63-85 and l.136-151: the tactics and the pass generator
    are built, the target region is set and the bait tactics are placed. *)
Definition is_setup_call (c : Call) : bool :=
  match c with
  | NewGoalieTactic _ _ _ _ | NewMoveTactic _ _ | NewCherryPickTactic _ _ _
  | NewPassGenerator _ _ _ | setTargetRegion _ => true
  | MoveUpdateControlParams bait_move_tactic_1 _ _ _
  | MoveUpdateControlParams bait_move_tactic_2 _ _ _ => true
  | _ => false
  end.

(** The snapshots handed to [setWorld], in order. *)
Fixpoint pushed_worlds (cs : list Call) : list World :=
  match cs with
  | [] => []
  | setWorld w :: rest => w :: pushed_worlds rest
  | _ :: rest => pushed_worlds rest
  end.

(** ** Concrete data for the examples *)

(** A normalisation that scales a vector to the requested length. *)
Definition scale_to_length (v : Vector) (l : double) : Vector :=
  vscale (l / length v) v.

Definition no_orientation (v : Vector) : Angle := 0.

Definition example_field : Field :=
  mkField (mkPoint 4 3) (mkPoint 4 (-3)) (mkPoint 4 0)
          (mkRectangle (mkPoint 3 (-1)) (mkPoint 4 1)) (mkPoint 0 0) 6.

Definition example_world (ball_at : Point) (g : GameState) (now : Timestamp) : World :=
  mkWorld example_field (mkBall ball_at (mkVector 0 0)) (mkTeam []) (mkTeam []) g now.

Definition example_pass : Pass := mkPass (mkPoint 2 0) (mkPoint 4 3) 5 ONE_TOUCH_SHOT.

Definition example_tick (now : Timestamp) (assigned : option Robot) (score : double) : Tick :=
  mkTick (example_world (mkPoint 4 3) (mkGameState READY (Some FRIENDLY)) now)
         assigned true false (mkPassWithRating example_pass score).

(** ** Properties *)

Lemma ltb_true a b : ltb a b = true <-> a < b.
Proof. unfold ltb; destruct (Rlt_dec a b); split; intros; try discriminate; auto; lra. Qed.

Lemma ltb_false a b : ltb a b = false <-> b <= a.
Proof. unfold ltb; destruct (Rlt_dec a b); split; intros; try discriminate; auto; lra. Qed.

Lemma leb_true a b : leb a b = true <-> a <= b.
Proof. unfold leb; destruct (Rle_dec a b); split; intros; try discriminate; auto; lra. Qed.

Lemma leb_false a b : leb a b = false <-> b < a.
Proof. unfold leb; destruct (Rle_dec a b); split; intros; try discriminate; auto; lra. Qed.

Lemma std_min_Rmin a b : std_min a b = Rmin a b.
Proof.
  unfold std_min, Rmin.
  destruct (ltb b a) eqn:E; destruct (Rle_dec a b) as [H|H]; auto.
  - apply ltb_true in E; lra.
  - apply ltb_false in E; lra.
Qed.

Lemma std_min_le a b c : std_min a b <= c <-> a <= c \/ b <= c.
Proof.
  rewrite std_min_Rmin. unfold Rmin.
  destruct (Rle_dec a b); split; intros; try tauto; destruct H; try tauto; lra.
Qed.

(** *** The predicates *)

(** C7. [invariantHolds] is true exactly when the game state is playing or
    ready and, besides, the enemy team has no possession or a friendly pass
    is in progress; when the game state is neither playing nor ready it is
    false whatever the possession. *)
Theorem invariantHolds_spec :
  forall (teamHasPossession teamPassInProgress : World -> Team -> bool) (w : World),
    (invariantHolds teamHasPossession teamPassInProgress w = true <->
       (isPlaying (gameState w) = true \/ isReadyState (gameState w) = true) /\
       (teamHasPossession w (enemyTeam w) = false \/
        teamPassInProgress w (friendlyTeam w) = true)) /\
    (isPlaying (gameState w) = false /\ isReadyState (gameState w) = false ->
       invariantHolds teamHasPossession teamPassInProgress w = false).
Proof.
  intros teamHasPossession teamPassInProgress w. unfold invariantHolds. split.
  - rewrite andb_true_iff, !orb_true_iff, negb_true_iff. tauto.
  - intros [Hp Hr]. rewrite Hp, Hr. reflexivity.
Qed.

(** C3, as amended. [isApplicable] is true exactly when the game state marks
    a free kick awarded to the friendly team and the ball is within
    [BALL_IN_CORNER_RADIUS] of one of the two enemy corners; in every other
    case it is false. *)
Theorem isApplicable_spec :
  forall (BALL_IN_CORNER_RADIUS : double) (w : World),
    (isApplicable BALL_IN_CORNER_RADIUS w = true <->
       isOurFreeKick (gameState w) = true /\ ball_in_corner BALL_IN_CORNER_RADIUS w) /\
    (isApplicable BALL_IN_CORNER_RADIUS w = false <->
       ~ (isOurFreeKick (gameState w) = true /\ ball_in_corner BALL_IN_CORNER_RADIUS w)).
Proof.
  intros radius w.
  assert (H : isApplicable radius w = true <->
              isOurFreeKick (gameState w) = true /\ ball_in_corner radius w).
  { unfold isApplicable, ball_in_corner, min_dist_to_corner.
    rewrite andb_true_iff, leb_true, std_min_le. tauto. }
  split; [exact H|].
  rewrite <- H. destruct (isApplicable radius w); split; intros; congruence.
Qed.

(** *** The decay of the acceptance threshold *)

Lemma quotient_le_1 (t T : R) : 0 < T -> (t / T <= 1 <-> t <= T).
Proof.
  intro HT. split; intro H.
  - apply (Rmult_le_compat_r T) in H; [|lra].
    unfold Rdiv in H. rewrite Rmult_assoc, Rinv_l, Rmult_1_r, Rmult_1_l in H; lra.
  - apply (Rmult_le_reg_r T); [lra|].
    unfold Rdiv. rewrite Rmult_assoc, Rinv_l, Rmult_1_r, Rmult_1_l; lra.
Qed.

Lemma quotient_mono (t t' T : R) : 0 < T -> t <= t' -> t / T <= t' / T.
Proof.
  intros HT H. unfold Rdiv. apply Rmult_le_compat_r; [|exact H].
  left. apply Rinv_0_lt_compat. exact HT.
Qed.

Lemma quotient_nonneg (t T : R) : 0 < T -> 0 <= t -> 0 <= t / T.
Proof.
  intros HT H. replace 0 with (0 / T) by (unfold Rdiv; ring).
  apply quotient_mono; assumption.
Qed.

Lemma min_score_after_Rmin (t : Duration) :
  min_score_after t = 1 - Rmin (t / MAX_TIME_TO_COMMIT_TO_PASS) 1.
Proof. unfold min_score_after, getSeconds. rewrite std_min_Rmin. reflexivity. Qed.

Lemma min_score_after_late (t : Duration) :
  0 < MAX_TIME_TO_COMMIT_TO_PASS -> MAX_TIME_TO_COMMIT_TO_PASS <= t ->
  min_score_after t = 0.
Proof.
  intros HT H. rewrite min_score_after_Rmin.
  pose proof (quotient_mono _ _ _ HT H) as Hq.
  unfold Rdiv at 1 in Hq. rewrite Rinv_r in Hq by lra.
  rewrite Rmin_right; lra.
Qed.

Lemma min_score_after_early (t : Duration) :
  0 < MAX_TIME_TO_COMMIT_TO_PASS -> t <= MAX_TIME_TO_COMMIT_TO_PASS ->
  min_score_after t = 1 - t / MAX_TIME_TO_COMMIT_TO_PASS.
Proof.
  intros HT H. rewrite min_score_after_Rmin, Rmin_left; [reflexivity|].
  apply quotient_le_1; assumption.
Qed.

Lemma min_score_after_antitone (t t' : Duration) :
  0 < MAX_TIME_TO_COMMIT_TO_PASS -> t <= t' ->
  min_score_after t' <= min_score_after t.
Proof.
  intros HT H. rewrite !min_score_after_Rmin.
  pose proof (quotient_mono t t' _ HT H) as Hq.
  unfold Rmin.
  destruct (Rle_dec (t / MAX_TIME_TO_COMMIT_TO_PASS) 1);
    destruct (Rle_dec (t' / MAX_TIME_TO_COMMIT_TO_PASS) 1); lra.
Qed.

(** The loop condition of the Decide loop, read off [deciding]. *)
Lemma deciding_continues (start : Timestamp) (tk : Tick) :
  next (deciding start tk) = Deciding start <->
  rating (best_pass_so_far tk) <
    min_score_after (getMostRecentTimestamp (world tk) - start).
Proof.
  unfold deciding. rewrite <- ltb_true.
  destruct (ltb _ _); simpl; split; intros; try reflexivity; discriminate.
Qed.

Lemma deciding_refuses (start : Timestamp) (tk : Tick) :
  rating (best_pass_so_far tk) <
    min_score_after (getMostRecentTimestamp (world tk) - start) ->
  deciding start tk =
    mkStep (Deciding start) (getBestPassSoFar :: loop_body (world tk))
           (Some align_stage_tactics).
Proof.
  intro H. unfold deciding. apply ltb_true in H. rewrite H. reflexivity.
Qed.

Lemma deciding_commits (start : Timestamp) (tk : Tick) :
  min_score_after (getMostRecentTimestamp (world tk) - start)
    <= rating (best_pass_so_far tk) ->
  deciding start tk =
    start_executing [getBestPassSoFar] (pass (best_pass_so_far tk)) (world tk).
Proof.
  intro H. unfold deciding. apply ltb_false in H. rewrite H. reflexivity.
Qed.

(** C2. With a positive maximum commit duration [T] and an elapsed time
    [t >= 0], the threshold of a Decide iteration is [max(0, 1 - t/T)]: the
    loop goes on exactly when the rating is below it.  The threshold does not
    increase with [t], is 1 at [t = 0], is never above 1 and is 0 from [T] on. *)
Theorem min_score_decay :
  0 < MAX_TIME_TO_COMMIT_TO_PASS ->
  forall t : Duration, 0 <= t ->
    min_score_after t = Rmax 0 (1 - t / MAX_TIME_TO_COMMIT_TO_PASS) /\
    (forall start tk, getMostRecentTimestamp (world tk) - start = t ->
       (next (resume (Deciding start) tk) = Deciding start <->
        rating (best_pass_so_far tk) < Rmax 0 (1 - t / MAX_TIME_TO_COMMIT_TO_PASS))) /\
    (forall t' : Duration, t <= t' -> min_score_after t' <= min_score_after t) /\
    min_score_after 0 = 1 /\
    min_score_after t <= 1 /\
    (MAX_TIME_TO_COMMIT_TO_PASS <= t -> min_score_after t = 0).
Proof.
  intros HT t Ht.
  assert (E : min_score_after t = Rmax 0 (1 - t / MAX_TIME_TO_COMMIT_TO_PASS)).
  { rewrite min_score_after_Rmin.
    generalize (t / MAX_TIME_TO_COMMIT_TO_PASS). intro q.
    unfold Rmin, Rmax.
    destruct (Rle_dec q 1); destruct (Rle_dec 0 (1 - q)); lra. }
  split; [exact E|]. split; [|split; [|split; [|split]]].
  - intros start tk Hel. simpl. rewrite deciding_continues, Hel, E. tauto.
  - intros t' H. apply min_score_after_antitone; assumption.
  - rewrite min_score_after_Rmin. unfold Rdiv. rewrite Rmult_0_l.
    rewrite Rmin_left; lra.
  - rewrite min_score_after_Rmin.
    pose proof (quotient_nonneg t _ HT Ht). unfold Rmin.
    destruct (Rle_dec (t / MAX_TIME_TO_COMMIT_TO_PASS) 1); lra.
  - apply min_score_after_late; assumption.
Qed.

(** *** Runs of the coroutine *)

Lemma final_app (pp : ProgramPoint) (a b : list Tick) :
  final pp (a ++ b) = final (final pp a) b.
Proof. unfold final. apply fold_left_app. Qed.

Lemma final_cons (pp : ProgramPoint) (tk : Tick) (rest : list Tick) :
  final pp (tk :: rest) = final (next (resume pp tk)) rest.
Proof. reflexivity. Qed.

Lemma run_app (a b : list Tick) :
  forall pp, run pp (a ++ b) = run pp a ++ run (final pp a) b.
Proof.
  induction a as [|tk a IH]; intro pp; simpl; [reflexivity|].
  rewrite IH. reflexivity.
Qed.

Lemma executing_next (p : Pass) (tk : Tick) :
  (next (executing p tk) = Executing p /\
   calls (executing p tk) = [PasserUpdateControlParams p; ReceiverUpdateControlParams p] /\
   yielded (executing p tk) = Some execute_stage_tactics) \/
  (next (executing p tk) = Finished /\
   calls (executing p tk) = [] /\ yielded (executing p tk) = None).
Proof. unfold executing. destruct (receiver_done tk); simpl; auto. Qed.

Lemma deciding_next (start : Timestamp) (tk : Tick) :
  next (deciding start tk) = Deciding start \/
  next (deciding start tk) = Executing (pass (best_pass_so_far tk)).
Proof. unfold deciding. destruct (ltb _ _); simpl; auto. Qed.

Lemma committed_stays (pp : ProgramPoint) (tk : Tick) :
  has_committed pp = true -> has_committed (next (resume pp tk)) = true.
Proof.
  destruct pp; simpl; try discriminate; auto.
  intros _. unfold executing. destruct (receiver_done tk); reflexivity.
Qed.

Lemma deciding_or_committed (start : Timestamp) (ticks : list Tick) :
  forall pp, pp = Deciding start \/ has_committed pp = true ->
    final pp ticks = Deciding start \/ has_committed (final pp ticks) = true.
Proof.
  induction ticks as [|tk ticks IH]; intros pp H; [exact H|].
  rewrite final_cons. apply IH. destruct H as [-> | H].
  - simpl. destruct (deciding_next start tk) as [E|E]; rewrite E; auto.
  - right. apply committed_stays. exact H.
Qed.

(** C1. The Decide stage is entered on the tick that finds the
    align-to-ball tactic done, and its clock starts at the timestamp of that
    tick.  With a positive [MAX_TIME_TO_COMMIT_TO_PASS], a Decide iteration
    resumed when at least that much time has passed since then computes the
    threshold 0 and, for any rating [>= 0], leaves the loop with the pass
    just read.  Hence, whatever the ratings in [0,1] of the ticks before, the
    Play has committed after the first such tick. *)
Theorem decide_commits_by_deadline :
  0 < MAX_TIME_TO_COMMIT_TO_PASS ->
  forall start : Timestamp,
    (forall tk, getMostRecentTimestamp (world tk) = start -> align_done tk = true ->
       next (resume Aligning tk) = Deciding start) /\
    (forall tk,
       0 <= rating (best_pass_so_far tk) ->
       MAX_TIME_TO_COMMIT_TO_PASS <= getMostRecentTimestamp (world tk) - start ->
       min_score_after (getMostRecentTimestamp (world tk) - start) = 0 /\
       next (resume (Deciding start) tk) = Executing (pass (best_pass_so_far tk))) /\
    (forall earlier tk,
       Forall (fun k => 0 <= rating (best_pass_so_far k) <= 1) (earlier ++ [tk]) ->
       MAX_TIME_TO_COMMIT_TO_PASS <= getMostRecentTimestamp (world tk) - start ->
       has_committed (final (Deciding start) (earlier ++ [tk])) = true).
Proof.
  intros HT start.
  assert (One : forall tk,
       0 <= rating (best_pass_so_far tk) ->
       MAX_TIME_TO_COMMIT_TO_PASS <= getMostRecentTimestamp (world tk) - start ->
       min_score_after (getMostRecentTimestamp (world tk) - start) = 0 /\
       next (resume (Deciding start) tk) = Executing (pass (best_pass_so_far tk))).
  { intros tk Hr Hlate.
    pose proof (min_score_after_late _ HT Hlate) as Z.
    split; [exact Z|]. simpl. rewrite deciding_commits; [reflexivity|lra]. }
  split; [|split; [exact One|]].
  { intros tk Hts Hdone. simpl. unfold aligning. rewrite Hdone, Hts. reflexivity. }
  intros earlier tk Hall Hlate.
  rewrite final_app. simpl.
  apply Forall_app in Hall. destruct Hall as [_ Htk].
  inversion Htk as [|? ? [Hr _] _]; subst.
  destruct (deciding_or_committed start earlier (Deciding start)) as [E|E]; auto.
  - rewrite E. destruct (One tk Hr Hlate) as [_ ->]. reflexivity.
  - apply committed_stays. exact E.
Qed.

(** *** The committed pass *)

Lemma run_after_commit (p : Pass) (ticks : list Tick) :
  forall pp, pp = Executing p \/ pp = Finished ->
    Forall (fun s =>
              (next s = Executing p /\
               calls s = [PasserUpdateControlParams p; ReceiverUpdateControlParams p] /\
               yielded s = Some execute_stage_tactics) \/
              (next s = Finished /\ calls s = [] /\ yielded s = None))
           (run pp ticks).
Proof.
  induction ticks as [|tk ticks IH]; intros pp H; simpl; constructor.
  - destruct H as [-> | ->]; simpl; [apply executing_next | auto].
  - apply IH. destruct H as [-> | ->]; simpl; auto.
    destruct (executing_next p tk) as [[E _]|[E _]]; auto.
Qed.

(** C5. The pass with which the Decide loop is left is the one just read
    from the pass generator; it is handed to [updateControlParams] of the
    passer and of the receiver in that resumption, and every later resumption
    either hands the same pass to both again and yields the Execute-stage
    tactics, or finds the receiver done and makes no call at all. *)
Theorem committed_pass_is_frozen :
  forall (start : Timestamp) (tk : Tick) (p : Pass),
    next (resume (Deciding start) tk) = Executing p ->
    p = pass (best_pass_so_far tk) /\
    (exists before,
       calls (resume (Deciding start) tk) =
         before ++ [PasserUpdateControlParams p; ReceiverUpdateControlParams p]) /\
    forall ticks,
      Forall (fun s =>
                (next s = Executing p /\
                 calls s = [PasserUpdateControlParams p; ReceiverUpdateControlParams p] /\
                 yielded s = Some execute_stage_tactics) \/
                (next s = Finished /\ calls s = [] /\ yielded s = None))
             (run (Executing p) ticks).
Proof.
  intros start tk p H. simpl in H.
  assert (E : p = pass (best_pass_so_far tk)).
  { destruct (deciding_next start tk) as [D|D]; rewrite D in H; congruence. }
  split; [exact E|]. split.
  - simpl. unfold deciding in *. destruct (ltb _ _); simpl in *; [discriminate|].
    subst p.
    exists [getBestPassSoFar;
            NewPasserTactic (pass (best_pass_so_far tk)) (ball (world tk))
              (field (world tk)) false;
            NewReceiverTactic (field (world tk)) (friendlyTeam (world tk))
              (enemyTeam (world tk)) (pass (best_pass_so_far tk))
              (ball (world tk)) false].
    reflexivity.
  - intro ticks. apply run_after_commit. auto.
Qed.

(** *** The yielded tactics *)

Lemma resume_cases (pp : ProgramPoint) (tk : Tick) :
  (in_setupPass (next (resume pp tk)) = true /\
   yielded (resume pp tk) = Some align_stage_tactics) \/
  ((exists p, next (resume pp tk) = Executing p) /\
   yielded (resume pp tk) = Some execute_stage_tactics) \/
  (next (resume pp tk) = Finished /\ yielded (resume pp tk) = None).
Proof.
  destruct pp; simpl.
  - unfold wait_for_robot. destruct (getAssignedRobot tk); simpl; auto.
  - unfold wait_for_robot. destruct (getAssignedRobot tk); simpl; auto.
  - unfold aligning. destruct (align_done tk); simpl; auto.
  - unfold deciding. destruct (ltb _ _); simpl; eauto.
  - unfold executing. destruct (receiver_done tk); simpl; eauto.
  - auto.
Qed.

Lemma NoDup_align_stage_tactics : NoDup align_stage_tactics.
Proof.
  unfold align_stage_tactics.
  repeat (constructor; [simpl; intuition discriminate|]). constructor.
Qed.

Lemma NoDup_execute_stage_tactics : NoDup execute_stage_tactics.
Proof.
  unfold execute_stage_tactics.
  repeat (constructor; [simpl; intuition discriminate|]). constructor.
Qed.

(** C6. A resumption that ends suspended in one of the loops of [setupPass]
    (waiting for a robot, aligning, deciding) yields exactly the goalkeeper,
    the align-to-ball tactic, the two cherry-pick tactics and the two bait
    tactics; one that ends in the Execute loop yields exactly the goalkeeper,
    the passer, the receiver and the two bait tactics.  Nothing else is ever
    yielded, and no yielded vector names the same tactic object twice (a
    tactic object drives one robot, the one assigned to it downstream). *)
Theorem yielded_tactic_sets :
  forall (pp : ProgramPoint) (tk : Tick),
    (in_setupPass (next (resume pp tk)) = true ->
       yielded (resume pp tk) =
         Some [goalie_tactic; align_to_ball_tactic; cherry_pick_tactic_pos_y;
               cherry_pick_tactic_neg_y; bait_move_tactic_1; bait_move_tactic_2]) /\
    (forall p, next (resume pp tk) = Executing p ->
       yielded (resume pp tk) =
         Some [goalie_tactic; passer; receiver; bait_move_tactic_1; bait_move_tactic_2]) /\
    (forall ts, yielded (resume pp tk) = Some ts ->
       NoDup ts /\
       (in_setupPass (next (resume pp tk)) = true /\ List.length ts = 6%nat \/
        (exists p, next (resume pp tk) = Executing p) /\ List.length ts = 5%nat)).
Proof.
  intros pp tk.
  destruct (resume_cases pp tk) as [[S Y]|[[[p E] Y]|[F Y]]]; rewrite Y.
  - split; [auto|]. split.
    + intros p E. rewrite E in S. discriminate.
    + intros ts H. injection H as <-. split; [apply NoDup_align_stage_tactics|auto].
  - rewrite E. split; [discriminate|]. split; [auto|].
    intros ts H. injection H as <-. split; [apply NoDup_execute_stage_tactics|eauto].
  - rewrite F. split; [discriminate|]. split; [discriminate|]. discriminate.
Qed.

(** *** Registration of the passer *)

Lemma passer_registrations_app (a b : list Call) :
  passer_registrations (a ++ b) = passer_registrations a ++ passer_registrations b.
Proof.
  induction a as [|c a IH]; simpl; [reflexivity|].
  destruct c; simpl; rewrite IH; reflexivity.
Qed.

Lemma wait_for_robot_none (before : list Call) (tk : Tick) :
  getAssignedRobot tk = None ->
  passer_registrations before = [] ->
  next (wait_for_robot before tk) = WaitingForRobot /\
  yielded (wait_for_robot before tk) = Some align_stage_tactics /\
  passer_registrations (calls (wait_for_robot before tk)) = [].
Proof.
  intros H Hb. unfold wait_for_robot. rewrite H. simpl.
  rewrite passer_registrations_app, Hb. auto.
Qed.

Lemma wait_for_robot_some (before : list Call) (tk : Tick) (robot : Robot) :
  getAssignedRobot tk = Some robot ->
  passer_registrations before = [] ->
  next (wait_for_robot before tk) = Aligning /\
  passer_registrations (calls (wait_for_robot before tk)) = [id robot].
Proof.
  intros H Hb. unfold wait_for_robot. rewrite H. simpl.
  rewrite passer_registrations_app, Hb. auto.
Qed.

Lemma setup_registers_nothing (w : World) :
  passer_registrations (setup_tactics w ++ setup_pass_generator w) = [].
Proof. reflexivity. Qed.

(** Before a robot is seen on the align-to-ball tactic. *)
Lemma resume_unassigned (pp : ProgramPoint) (tk : Tick) :
  robot_was_assigned pp = false ->
  getAssignedRobot tk = None ->
  next (resume pp tk) = WaitingForRobot /\
  yielded (resume pp tk) = Some align_stage_tactics /\
  passer_registrations (calls (resume pp tk)) = [].
Proof.
  intros Hpp H. destruct pp; try discriminate; simpl;
    apply wait_for_robot_none; auto.
Qed.

Lemma resume_first_assigned (pp : ProgramPoint) (tk : Tick) (robot : Robot) :
  robot_was_assigned pp = false ->
  getAssignedRobot tk = Some robot ->
  next (resume pp tk) = Aligning /\
  passer_registrations (calls (resume pp tk)) = [id robot].
Proof.
  intros Hpp H. destruct pp; try discriminate; simpl;
    apply wait_for_robot_some; auto.
Qed.

(** Once the first loop has been left. *)
Lemma resume_assigned (pp : ProgramPoint) (tk : Tick) :
  robot_was_assigned pp = true ->
  robot_was_assigned (next (resume pp tk)) = true /\
  passer_registrations (calls (resume pp tk)) = [].
Proof.
  destruct pp; try discriminate; intros _; simpl.
  - unfold aligning. destruct (align_done tk); simpl; auto.
  - unfold deciding. destruct (ltb _ _); simpl; auto.
  - unfold executing. destruct (receiver_done tk); simpl; auto.
  - auto.
Qed.

Lemma run_assigned (ticks : list Tick) :
  forall pp, robot_was_assigned pp = true ->
    passer_registrations (all_calls (run pp ticks)) = [].
Proof.
  induction ticks as [|tk ticks IH]; intros pp H; [reflexivity|].
  destruct (resume_assigned pp tk H) as [N C].
  unfold all_calls in *. simpl.
  rewrite passer_registrations_app, C, IH; auto.
Qed.

Lemma run_unassigned (ticks : list Tick) :
  Forall (fun tk => getAssignedRobot tk = None) ticks ->
  forall pp, robot_was_assigned pp = false ->
    Forall (fun s => next s = WaitingForRobot /\
                     yielded s = Some align_stage_tactics /\
                     passer_registrations (calls s) = [])
           (run pp ticks) /\
    passer_registrations (all_calls (run pp ticks)) = [] /\
    robot_was_assigned (final pp ticks) = false /\
    (ticks <> [] -> final pp ticks = WaitingForRobot).
Proof.
  induction 1 as [|tk ticks Htk Hall IH]; intros pp Hpp.
  - simpl. repeat split; auto. congruence.
  - destruct (resume_unassigned pp tk Hpp Htk) as (N & Y & C).
    destruct (IH (next (resume pp tk))) as (F & R & A & W); [rewrite N; reflexivity|].
    rewrite final_cons. simpl. repeat split; auto.
    + unfold all_calls in *. simpl. rewrite passer_registrations_app, C, R. reflexivity.
    + intros _. destruct ticks as [|tk' ticks']; [exact N|]. apply W. discriminate.
Qed.

(** C8. As long as no robot is assigned to the align-to-ball tactic, every
    resumption ends suspended in the first loop of [setupPass], yields the
    Align-stage tactics and registers no passer; the Play stays in that loop
    for any number of resumptions and never reaches the Decide loop. *)
Theorem no_robot_no_progress :
  forall ticks : list Tick,
    Forall (fun tk => getAssignedRobot tk = None) ticks ->
    Forall (fun s => next s = WaitingForRobot /\
                     yielded s = Some align_stage_tactics /\
                     passer_registrations (calls s) = [])
           (run Entry ticks) /\
    passer_registrations (all_calls (run Entry ticks)) = [] /\
    (ticks <> [] -> final Entry ticks = WaitingForRobot) /\
    (forall start, final Entry ticks <> Deciding start).
Proof.
  intros ticks H.
  destruct (run_unassigned ticks H Entry eq_refl) as (F & R & A & W).
  repeat split; auto.
  intros start E. rewrite E in A. discriminate.
Qed.

(** C10. [setPasserRobotId] is called at most once in a run of the Play,
    and when some tick is the first to show a robot on the align-to-ball
    tactic it is called exactly once, with the id of that robot, whichever
    robots the later ticks show. *)
Theorem passer_registered_once :
  (forall ticks : list Tick,
     (List.length (passer_registrations (all_calls (run Entry ticks))) <= 1)%nat) /\
  (forall (earlier : list Tick) (tk : Tick) (later : list Tick) (robot : Robot),
     Forall (fun k => getAssignedRobot k = None) earlier ->
     getAssignedRobot tk = Some robot ->
     passer_registrations (all_calls (run Entry (earlier ++ tk :: later))) = [id robot]).
Proof.
  assert (Once : forall ticks pp, robot_was_assigned pp = false ->
     (List.length (passer_registrations (all_calls (run pp ticks))) <= 1)%nat).
  { induction ticks as [|tk ticks IH]; intros pp Hpp; [simpl; lia|].
    unfold all_calls in *. simpl. rewrite passer_registrations_app, length_app.
    destruct (getAssignedRobot tk) as [robot|] eqn:G.
    - destruct (resume_first_assigned pp tk robot Hpp G) as [N C].
      rewrite C, N. fold (all_calls (run Aligning ticks)).
      rewrite run_assigned by reflexivity. simpl. lia.
    - destruct (resume_unassigned pp tk Hpp G) as (N & _ & C).
      rewrite C. simpl. apply IH. rewrite N. reflexivity. }
  split; [intro ticks; apply Once; reflexivity|].
  intros earlier tk later robot Hall G.
  destruct (run_unassigned earlier Hall Entry eq_refl) as (_ & R & A & _).
  rewrite run_app. unfold all_calls in *. rewrite flat_map_app, passer_registrations_app, R.
  simpl. rewrite passer_registrations_app.
  destruct (resume_first_assigned _ tk robot A G) as [N C].
  rewrite C, N. fold (all_calls (run Aligning later)).
  rewrite run_assigned by reflexivity. reflexivity.
Qed.

(** *** Reads of the pass generator *)

Lemma loop_body_ends_with_push (w : World) :
  loop_body w =
    updateAlignToBallTactic w ++ [setWorld w; setPasserPoint (ball_position (ball w))].
Proof. reflexivity. Qed.

Lemma loop_body_no_read (w : World) : ~ In getBestPassSoFar (loop_body w).
Proof. simpl. intuition discriminate. Qed.

(** A resumption that ends suspended in the Decide loop ran the loop body last. *)
Lemma into_deciding_ends_with_body (pp : ProgramPoint) (tk : Tick) (start : Timestamp) :
  next (resume pp tk) = Deciding start ->
  exists before, calls (resume pp tk) = before ++ loop_body (world tk).
Proof.
  destruct pp; simpl.
  - unfold wait_for_robot. destruct (getAssignedRobot tk); discriminate.
  - unfold wait_for_robot. destruct (getAssignedRobot tk); discriminate.
  - unfold aligning. destruct (align_done tk); simpl; intro H; try discriminate.
    exists []. reflexivity.
  - unfold deciding. destruct (ltb _ _); simpl; intro H; try discriminate.
    exists [getBestPassSoFar]. reflexivity.
  - unfold executing. destruct (receiver_done tk); discriminate.
  - discriminate.
Qed.

Lemma deciding_reads_first (start : Timestamp) (tk : Tick) :
  exists rest, calls (deciding start tk) = getBestPassSoFar :: rest /\
               ~ In getBestPassSoFar rest.
Proof.
  unfold deciding. destruct (ltb _ _); simpl.
  - eexists; split; [reflexivity|]. apply (loop_body_no_read (world tk)).
  - eexists; split; [reflexivity|]. simpl. intuition discriminate.
Qed.

(** C4, as amended.  The pass generator is read in two places only.  In the
    Decide loop the read is the first call of the resumption: the last calls
    before it, made before the yield on the previous tick, are [setWorld] and
    [setPasserPoint] with the snapshot of that previous tick.  On the first
    resumption the read follows the construction of the generator from the
    current snapshot and [setTargetRegion], and nothing is pushed before it. *)
Theorem read_follows_previous_push :
  forall (pp : ProgramPoint) (tk : Tick),
    (forall start, next (resume pp tk) = Deciding start ->
       (exists before,
          calls (resume pp tk) =
            before ++ [setWorld (world tk);
                       setPasserPoint (ball_position (ball (world tk)))]) /\
       (forall tk', exists rest,
          calls (resume (Deciding start) tk') = getBestPassSoFar :: rest /\
          ~ In getBestPassSoFar rest)) /\
    (In getBestPassSoFar (calls (resume pp tk)) ->
       pp = Entry \/ exists start, pp = Deciding start) /\
    (forall tk', exists before rest,
       calls (resume Entry tk') =
         before ++
         [NewPassGenerator (world tk') (ball_position (ball (world tk'))) ONE_TOUCH_SHOT;
          setTargetRegion
            (mkRectangle (mkPoint 1 (field_yLength (field (world tk')) / 2))
                         (enemyCornerNeg (field (world tk'))));
          getBestPassSoFar] ++ rest /\
       (forall w, ~ In (setWorld w) before) /\
       ~ In getBestPassSoFar before /\ ~ In getBestPassSoFar rest).
Proof.
  intros pp tk. split; [|split].
  - intros start H. split.
    + destruct (into_deciding_ends_with_body pp tk start H) as [before E].
      exists (before ++ updateAlignToBallTactic (world tk)).
      rewrite E, loop_body_ends_with_push, app_assoc. reflexivity.
    + intro tk'. apply deciding_reads_first.
  - destruct pp; simpl; eauto.
    + unfold wait_for_robot. destruct (getAssignedRobot tk); simpl; intuition discriminate.
    + unfold aligning. destruct (align_done tk); simpl; intuition discriminate.
    + unfold executing. destruct (receiver_done tk); simpl; intuition discriminate.
    + intros [].
  - intro tk'. simpl. unfold wait_for_robot.
    exists (setup_tactics (world tk') ++
            [NewMoveTactic align_to_ball_tactic false;
             NewCherryPickTactic cherry_pick_tactic_pos_y (world tk')
               (pos_y_cherry_pick_rectangle (world tk'));
             NewCherryPickTactic cherry_pick_tactic_neg_y (world tk')
               (neg_y_cherry_pick_rectangle (world tk'))]).
    destruct (getAssignedRobot tk') as [robot|].
    + exists (setPasserRobotId (id robot) :: loop_body (world tk')).
      split; [reflexivity|]. simpl. repeat split; intuition discriminate.
    + exists (loop_body (world tk')).
      split; [reflexivity|]. simpl. repeat split; intuition discriminate.
Qed.

(** *** The pose of the align-to-ball tactic *)

Lemma updateAlign_in_loop_body (w : World) :
  In (MoveUpdateControlParams align_to_ball_tactic (align_destination w)
        (orientation (ball_to_center_vec w)) 0)
     (loop_body w).
Proof. simpl. auto. Qed.

Lemma wait_for_robot_ran_body (before : list Call) (tk : Tick) :
  exists before', calls (wait_for_robot before tk) = before' ++ loop_body (world tk).
Proof.
  unfold wait_for_robot. destruct (getAssignedRobot tk) as [robot|]; simpl calls.
  - exists (before ++ [setPasserRobotId (id robot)]).
    rewrite <- app_assoc. reflexivity.
  - exists before. reflexivity.
Qed.

(** Every resumption that ends suspended in [setupPass] ran the loop body. *)
Lemma in_setupPass_ran_body (pp : ProgramPoint) (tk : Tick) :
  in_setupPass (next (resume pp tk)) = true ->
  exists before, calls (resume pp tk) = before ++ loop_body (world tk).
Proof.
  destruct pp; simpl.
  - intros _. apply wait_for_robot_ran_body.
  - intros _. apply wait_for_robot_ran_body.
  - unfold aligning. destruct (align_done tk); simpl; intros _; exists []; reflexivity.
  - unfold deciding. destruct (ltb _ _); simpl; intro H; try discriminate.
    exists [getBestPassSoFar]. reflexivity.
  - unfold executing. destruct (receiver_done tk); discriminate.
  - discriminate.
Qed.

Lemma length_nonzero (b : Point) :
  b <> mkPoint 0 0 -> 0 < length (psub b (mkPoint 0 0)).
Proof.
  intro H. unfold length, psub. simpl. apply sqrt_lt_R0.
  destruct b as [bx by_]. simpl.
  destruct (Req_dec bx 0) as [X|X]; destruct (Req_dec by_ 0) as [Y|Y].
  - subst. contradiction H. reflexivity.
  - subst. nra.
  - subst. nra.
  - nra.
Qed.

Lemma length_opposite (b : Point) :
  length (vsub (mkVector 0 0) (toVector b)) = length (psub b (mkPoint 0 0)).
Proof. unfold length, vsub, psub, toVector. simpl. f_equal. ring. Qed.

Lemma length_vscale (k : double) (v : Vector) :
  0 <= k -> length (vscale k v) = k * length v.
Proof.
  intro Hk. unfold length, vscale. simpl.
  replace (k * vx v * (k * vx v) + k * vy v * (k * vy v))
    with ((k * k) * (vx v * vx v + vy v * vy v)) by ring.
  rewrite sqrt_mult; [|nra|nra].
  rewrite sqrt_square by exact Hk. reflexivity.
Qed.

(** C9. Take [normalize] to scale a vector of non-zero length to the
    requested length, and a radius that is not negative.  Every resumption
    that ends suspended in [setupPass] (waiting, aligning or deciding) calls
    [updateControlParams] on the align-to-ball tactic with final speed 0, the
    orientation of the vector from the ball to the origin, which the source
    takes for the field center, and a destination that, when the ball is not
    at the origin, is the ball moved by twice [ROBOT_MAX_RADIUS_METERS] along
    the direction from the origin to the ball. *)
Theorem align_pose :
  (forall v l, length v <> 0 -> normalize v l = vscale (l / length v) v) ->
  0 <= ROBOT_MAX_RADIUS_METERS ->
  forall (pp : ProgramPoint) (tk : Tick),
    in_setupPass (next (resume pp tk)) = true ->
    let b := ball_position (ball (world tk)) in
    let away := psub b (mkPoint 0 0) in
    In (MoveUpdateControlParams align_to_ball_tactic (align_destination (world tk))
          (orientation (psub (mkPoint 0 0) b)) 0)
       (calls (resume pp tk)) /\
    (b <> mkPoint 0 0 ->
       align_destination (world tk) =
         pplus b (vscale (2 * ROBOT_MAX_RADIUS_METERS / length away) away) /\
       length (psub (align_destination (world tk)) b) = 2 * ROBOT_MAX_RADIUS_METERS).
Proof.
  intros Hnorm HR pp tk Hs b away. split.
  - destruct (in_setupPass_ran_body pp tk Hs) as [before E]. rewrite E.
    apply in_or_app. right. apply (updateAlign_in_loop_body (world tk)).
  - intro Hb. pose proof (length_nonzero b Hb) as Hlen. fold away in Hlen.
    assert (D : align_destination (world tk) =
                pplus b (vscale (2 * ROBOT_MAX_RADIUS_METERS / length away) away)).
    { unfold align_destination. fold b.
      rewrite Hnorm; unfold ball_to_center_vec; fold b;
        rewrite length_opposite; fold away; [|lra].
      unfold pminus, pplus, vscale, vsub, toVector, away, psub. simpl.
      f_equal; unfold Rdiv; ring. }
    split; [exact D|]. rewrite D.
    replace (psub (pplus b (vscale (2 * ROBOT_MAX_RADIUS_METERS / length away) away)) b)
      with (vscale (2 * ROBOT_MAX_RADIUS_METERS / length away) away).
    + rewrite length_vscale.
      * unfold Rdiv. rewrite Rmult_assoc, Rinv_l; lra.
      * apply quotient_nonneg; lra.
    + unfold psub, pplus, vscale. simpl. f_equal; ring.
Qed.

(** *** Progress through the stages *)

Ltac step_cases pp tk :=
  destruct pp; simpl;
  unfold wait_for_robot, aligning, deciding, executing, start_executing;
  try destruct (getAssignedRobot tk); try destruct (align_done tk);
  try destruct (ltb _ _); try destruct (receiver_done tk); simpl.

Lemma resume_rank (pp : ProgramPoint) (tk : Tick) :
  (stage_rank pp <= stage_rank (next (resume pp tk)))%nat /\
  (1 <= stage_rank (next (resume pp tk)))%nat /\
  (stage_rank (next (resume pp tk)) <= Nat.max 1 (stage_rank pp) + 1)%nat.
Proof. step_cases pp tk; lia. Qed.

Lemma final_rank (ticks : list Tick) :
  forall pp,
    (stage_rank pp <= stage_rank (final pp ticks))%nat /\
    (stage_rank (final pp ticks) <= Nat.max 1 (stage_rank pp) + List.length ticks)%nat.
Proof.
  induction ticks as [|tk ticks IH]; intro pp.
  { unfold final. cbn [fold_left List.length]. lia. }
  rewrite final_cons. destruct (IH (next (resume pp tk))) as [Lo Hi].
  destruct (resume_rank pp tk) as (A & B & C). cbn [List.length]. lia.
Qed.

Lemma finished_is_silent (ticks : list Tick) :
  final Finished ticks = Finished /\ all_calls (run Finished ticks) = [].
Proof.
  induction ticks as [|tk ticks [F C]]; [auto|].
  rewrite final_cons. simpl. auto.
Qed.


(** X2. The clock of the Decide stage is never restarted: whatever the
    ticks, a Play suspended in the Decide loop is either still there with
    the start time it entered with, or has committed. *)
Theorem decide_clock_is_fixed :
  forall (start : Timestamp) (ticks : list Tick),
    (forall start', final (Deciding start) ticks = Deciding start' -> start' = start) /\
    (in_setupPass (final (Deciding start) ticks) = true ->
       final (Deciding start) ticks = Deciding start).
Proof.
  intros start ticks.
  destruct (deciding_or_committed start ticks (Deciding start)) as [E|E]; auto.
  - rewrite E. split; [congruence|auto].
  - split.
    + intros start' H. rewrite H in E. discriminate.
    + intro H. destruct (final (Deciding start) ticks); discriminate.
Qed.

(** X3. The Play advances by at most one loop per resumption (the setup and
    the first loop counting as one), so it cannot have committed to a pass
    before its third resumption nor have finished before its fourth. *)
Theorem one_stage_per_resumption :
  forall ticks : list Tick,
    (stage_rank (final Entry ticks) <= 1 + List.length ticks)%nat /\
    (has_committed (final Entry ticks) = true -> (3 <= List.length ticks)%nat) /\
    (final Entry ticks = Finished -> (4 <= List.length ticks)%nat).
Proof.
  intro ticks. destruct (final_rank ticks Entry) as [_ Hi]. simpl in Hi.
  split; [exact Hi|]. split; intro H.
  - destruct (final Entry ticks); try discriminate; simpl in Hi; lia.
  - rewrite H in Hi. simpl in Hi. lia.
Qed.

(** *** What is done once only *)

Lemma filter_setup_later (pp : ProgramPoint) (tk : Tick) :
  pp <> Entry -> filter is_setup_call (calls (resume pp tk)) = [].
Proof. intro H. step_cases pp tk; solve [reflexivity | congruence]. Qed.

Lemma run_setup_later (ticks : list Tick) :
  forall pp, pp <> Entry -> filter is_setup_call (all_calls (run pp ticks)) = [].
Proof.
  induction ticks as [|tk ticks IH]; intros pp H; [reflexivity|].
  unfold all_calls in *. simpl. rewrite filter_app, filter_setup_later by exact H.
  apply IH. intro E. destruct (resume_rank pp tk) as (_ & B & _).
  rewrite E in B. simpl in B. lia.
Qed.

(** X4. The goalkeeper, bait, align-to-ball and cherry-pick tactics and the
    pass generator are built, the target region is set and the two bait
    tactics are placed on the first resumption only,
    from the snapshot of that tick; no later resumption builds or places
    them again, whatever the later snapshots show. *)
Theorem setup_happens_once :
  forall (tk : Tick) (later : list Tick),
    filter is_setup_call (all_calls (run Entry (tk :: later))) =
      setup_tactics (world tk) ++ removelast (setup_pass_generator (world tk)).
Proof.
  intros tk later. unfold all_calls. simpl flat_map. rewrite filter_app.
  fold (all_calls (run (next (resume Entry tk)) later)).
  rewrite run_setup_later.
  - rewrite app_nil_r. simpl. unfold wait_for_robot.
    destruct (getAssignedRobot tk); reflexivity.
  - simpl. unfold wait_for_robot. destruct (getAssignedRobot tk); discriminate.
Qed.

Lemma committed_final (ticks : list Tick) :
  forall pp, has_committed pp = true -> has_committed (final pp ticks) = true.
Proof.
  induction ticks as [|tk ticks IH]; intros pp H; [exact H|].
  rewrite final_cons. apply IH. apply committed_stays. exact H.
Qed.

Lemma pushed_worlds_app (a b : list Call) :
  pushed_worlds (a ++ b) = pushed_worlds a ++ pushed_worlds b.
Proof.
  induction a as [|c a IH]; simpl; [reflexivity|].
  destruct c; simpl; rewrite IH; reflexivity.
Qed.

Lemma pushed_in_setupPass (pp : ProgramPoint) (tk : Tick) :
  in_setupPass (next (resume pp tk)) = true ->
  pushed_worlds (calls (resume pp tk)) = [world tk].
Proof.
  intro H. destruct (in_setupPass_ran_body pp tk H) as [before E].
  revert H E. step_cases pp tk; intros H E; try discriminate; reflexivity.
Qed.

Lemma pushed_after_commit (pp : ProgramPoint) (tk : Tick) :
  has_committed pp = true -> pushed_worlds (calls (resume pp tk)) = [].
Proof. intro H. step_cases pp tk; try discriminate; reflexivity. Qed.

(** X5. As long as the Play has not committed, the pass generator has been
    handed the snapshot of every tick so far, once each and in the order of
    the ticks; after the commit it is handed none. *)
Theorem every_snapshot_is_pushed :
  forall ticks : list Tick,
    (in_setupPass (final Entry ticks) = true ->
       pushed_worlds (all_calls (run Entry ticks)) = map world ticks) /\
    (forall p later,
       pushed_worlds (all_calls (run (Executing p) later)) = []).
Proof.
  intro ticks. split.
  - assert (G : forall ts pp,
               pp = Entry \/ in_setupPass pp = true ->
               in_setupPass (final pp ts) = true ->
               pushed_worlds (all_calls (run pp ts)) = map world ts).
    { induction ts as [|tk ts IH]; intros pp Hpp H; [reflexivity|].
      rewrite final_cons in H.
      assert (S : in_setupPass (next (resume pp tk)) = true).
      { destruct (resume_cases pp tk) as [[S _]|[[[p E] _]|[E _]]]; [exact S| |].
        - assert (C : has_committed (final (next (resume pp tk)) ts) = true)
            by (apply committed_final; rewrite E; reflexivity).
          destruct (final (next (resume pp tk)) ts); discriminate.
        - rewrite E in H. destruct (finished_is_silent ts) as [F _].
          rewrite F in H. discriminate. }
      unfold all_calls in *. simpl. rewrite pushed_worlds_app.
      rewrite (pushed_in_setupPass pp tk S). simpl. f_equal.
      apply IH; auto. }
    apply G. auto.
  - intros p later.
    assert (G : forall ts pp, has_committed pp = true ->
               pushed_worlds (all_calls (run pp ts)) = []).
    { induction ts as [|tk ts IH]; intros pp H; [reflexivity|].
      unfold all_calls in *. simpl. rewrite pushed_worlds_app.
      rewrite (pushed_after_commit pp tk H). simpl.
      apply IH. apply committed_stays. exact H. }
    apply G. reflexivity.
Qed.

(** *** The loop condition outside the ratings of C1 *)

Lemma min_score_after_nonneg (t : Duration) : 0 <= min_score_after t.
Proof.
  rewrite min_score_after_Rmin.
  pose proof (Rmin_r (t / MAX_TIME_TO_COMMIT_TO_PASS) 1). lra.
Qed.

(** X6. With a positive maximum commit duration, a rating below 0 never
    leaves the Decide loop: while every tick reports a negative rating the
    Play stays in the loop, however much time passes. *)
Theorem negative_rating_never_commits :
  0 < MAX_TIME_TO_COMMIT_TO_PASS ->
  forall (start : Timestamp) (ticks : list Tick),
    Forall (fun tk => rating (best_pass_so_far tk) < 0) ticks ->
    final (Deciding start) ticks = Deciding start.
Proof.
  intros _ start ticks H. induction H as [|tk ticks Htk _ IH]; [reflexivity|].
  rewrite final_cons. simpl. rewrite deciding_refuses; [exact IH|].
  pose proof (min_score_after_nonneg (getMostRecentTimestamp (world tk) - start)).
  lra.
Qed.

(** X7. With a positive maximum commit duration, a rating of at least 1
    leaves the Decide loop at once when the clock has not gone back; when the
    timestamp is earlier than the start of the stage the threshold is above 1
    and every rating up to 1 is refused. *)
Theorem perfect_rating_and_clock :
  0 < MAX_TIME_TO_COMMIT_TO_PASS ->
  forall (start : Timestamp) (tk : Tick),
    (start <= getMostRecentTimestamp (world tk) ->
     1 <= rating (best_pass_so_far tk) ->
     next (resume (Deciding start) tk) = Executing (pass (best_pass_so_far tk))) /\
    (getMostRecentTimestamp (world tk) < start ->
     rating (best_pass_so_far tk) <= 1 ->
     next (resume (Deciding start) tk) = Deciding start).
Proof.
  intros HT start tk. simpl. split; intros Hts Hr.
  - rewrite deciding_commits; [reflexivity|].
    destruct (min_score_decay HT (getMostRecentTimestamp (world tk) - start))
      as (_ & _ & _ & _ & Le & _); lra.
  - rewrite deciding_refuses; [reflexivity|].
    rewrite min_score_after_early by lra.
    assert (Q : (getMostRecentTimestamp (world tk) - start)
                  / MAX_TIME_TO_COMMIT_TO_PASS < 0).
    { unfold Rdiv. pose proof (Rinv_0_lt_compat _ HT). nra. }
    lra.
Qed.

(** *** The places of the bait tactics *)

Lemma copysign_half (s : double) :
  copysign (1/2) s = if ltb s 0 then - (1/2) else 1/2.
Proof. unfold copysign. rewrite Rabs_right by lra. reflexivity. Qed.

(** X8. The bait tactics are placed from the enemy corner on the side
    opposite to the ball: both at the same y, half a metre from the corner
    towards the centre line when the corner is at least that far from it,
    and the second one defence-area width further from the goal line than
    the first. *)
Theorem bait_positions :
  forall w : World,
    let corner := opposite_corner_to_kick w in
    let first := bait_move_tactic_pos w (1/2) in
    let second := bait_move_tactic_pos w (3/2) in
    (0 < py (ball_position (ball w)) -> corner = enemyCornerNeg (field w)) /\
    (py (ball_position (ball w)) <= 0 -> corner = enemyCornerPos (field w)) /\
    py first = py second /\
    px first - px second = yLength (enemyDefenseArea (field w)) /\
    (1/2 <= Rabs (py corner) -> Rabs (py first) = Rabs (py corner) - 1/2).
Proof.
  intros w corner first second.
  split; [|split; [|split; [|split]]].
  - intro H. unfold corner, opposite_corner_to_kick, gtb.
    apply ltb_true in H. rewrite H. reflexivity.
  - intro H. unfold corner, opposite_corner_to_kick, gtb.
    apply ltb_false in H. rewrite H. reflexivity.
  - reflexivity.
  - unfold first, second, bait_move_tactic_pos. simpl. lra.
  - intro H. unfold first, bait_move_tactic_pos. simpl. fold corner.
    rewrite copysign_half. revert H.
    destruct (ltb (py corner) 0) eqn:E.
    + apply ltb_true in E. rewrite (Rabs_left (py corner)) by lra. intro H.
      rewrite Rabs_left1 by lra. lra.
    + apply ltb_false in E. rewrite (Rabs_right (py corner)) by lra. intro H.
      rewrite Rabs_right by lra. lra.
Qed.

(** *** The corner radius *)

Lemma length_nonneg (v : Vector) : 0 <= length v.
Proof. unfold length. apply sqrt_pos. Qed.

(** X9. [isApplicable] is false in every world when the corner radius is
    negative, and a world it accepts with one radius is accepted with every
    larger radius. *)
Theorem isApplicable_radius :
  forall (radius radius' : double) (w : World),
    (radius < 0 -> isApplicable radius w = false) /\
    (radius <= radius' -> isApplicable radius w = true ->
     isApplicable radius' w = true).
Proof.
  intros radius radius' w. unfold isApplicable, min_dist_to_corner. split.
  - intro H. apply andb_false_iff. right. apply leb_false.
    rewrite std_min_Rmin. unfold Rmin.
    destruct (Rle_dec _ _); eapply Rlt_le_trans; try exact H; apply length_nonneg.
  - intros H. rewrite !andb_true_iff, !leb_true. intros [F L].
    split; [exact F|lra].
Qed.

End Play.

(** C3, the counterexample: the enemy team holds the free kick and the ball
    lies on the positive enemy corner, yet [isApplicable] is false. *)
Lemma isApplicable_their_free_kick :
  let w := example_world (mkPoint 4 3) (mkGameState STOP (Some ENEMY)) 0 in
  isTheirFreeKick (gameState w) = true /\
  ball_in_corner (1/2) w /\
  isApplicable (1/2) w = false.
Proof.
  cbv zeta. split; [reflexivity|]. split.
  - left. unfold length, psub; simpl.
    replace ((4 - 4) * (4 - 4) + (3 - 3) * (3 - 3)) with 0 by ring.
    rewrite sqrt_0. lra.
  - reflexivity.
Qed.

(** ** The theorems on concrete runs

    The geometry is instantiated with [scale_to_length], a robot radius of
    9 cm and a maximum commit duration of 2 s. *)

Abbreviation example_resume := (resume scale_to_length no_orientation (9/100) 2).
Abbreviation example_run := (run scale_to_length no_orientation (9/100) 2).
Abbreviation example_final := (final scale_to_length no_orientation (9/100) 2).

Lemma example_threshold_half : min_score_after 2 (1 - 0) = 1/2.
Proof.
  unfold min_score_after, getSeconds. rewrite std_min_Rmin, Rmin_left; lra.
Qed.

Lemma example_still_deciding :
  example_resume (Deciding 0) (example_tick 1 None (1/4)) =
    mkStep (Deciding 0)
           (getBestPassSoFar ::
            loop_body scale_to_length no_orientation (9/100)
                      (world (example_tick 1 None (1/4))))
           (Some align_stage_tactics).
Proof.
  simpl. apply deciding_refuses. simpl. rewrite example_threshold_half. lra.
Qed.

Lemma example_commit :
  next (example_resume (Deciding 0) (example_tick (5/2) None 0)) = Executing example_pass.
Proof.
  simpl. rewrite deciding_commits; [reflexivity|].
  simpl. rewrite min_score_after_late; lra.
Qed.

(** The scenario of the spec: no robot on the first tick, robot 3 on the
    second, aligned on the third; with [T = 2] a rating of 1/4 after 1 s is
    refused (threshold 1/2), a rating of 2/5 after 1.8 s is accepted
    (threshold 1/10), and the Play ends when the receiver is done. *)
Example example_corner_kick :
  let w := example_world (mkPoint 4 3) (mkGameState READY (Some FRIENDLY)) in
  let robot := mkRobot 3%nat (mkPoint 4 (5/2)) in
  let best := mkPassWithRating example_pass in
  map next
      (example_run Entry
         [mkTick (w 0) None false false (best 0);
          mkTick (w 1) (Some robot) false false (best 0);
          mkTick (w 2) (Some robot) true false (best 1);
          mkTick (w 3) (Some robot) true false (best (1/4));
          mkTick (w (38/10)) (Some robot) true false (best (2/5));
          mkTick (w 4) (Some robot) true false (best 0);
          mkTick (w 5) (Some robot) true true (best 0)]) =
    [WaitingForRobot; Aligning; Deciding 2; Deciding 2;
     Executing example_pass; Executing example_pass; Finished].
Proof.
  cbv zeta. simpl run.
  rewrite deciding_refuses by (simpl; rewrite min_score_after_early; lra).
  simpl.
  rewrite deciding_commits by (simpl; rewrite min_score_after_early; lra).
  reflexivity.
Qed.

(** C4, the counterexample: a Decide iteration one second into the stage
    reads the pass generator as its first call, before [setWorld] and
    [setPasserPoint] are called with the snapshot of that tick. *)
Lemma read_precedes_push_of_its_tick :
  let tk := example_tick 1 None (1/4) in
  calls (example_resume (Deciding 0) tk) =
    [getBestPassSoFar;
     MoveUpdateControlParams align_to_ball_tactic
       (align_destination scale_to_length (9/100) (world tk))
       (no_orientation (ball_to_center_vec (world tk))) 0;
     setWorld (world tk);
     setPasserPoint (ball_position (ball (world tk)))] /\
  ~ read_follows_push (world tk) (calls (example_resume (Deciding 0) tk)).
Proof.
  cbv zeta. rewrite example_still_deciding. split; [reflexivity|].
  intro H. destruct (H [] _ eq_refl) as [[] _].
Qed.

(** C4 on a run: the tick that finds the tactic done enters the Decide loop
    and ends with the two pushes of its own snapshot. *)
Lemma read_follows_previous_push_witness :
  exists before,
    calls (example_resume Aligning (example_tick 1 None 0)) =
      before ++ [setWorld (world (example_tick 1 None 0)); setPasserPoint (mkPoint 4 3)].
Proof.
  destruct (read_follows_previous_push scale_to_length no_orientation (9/100) 2
              Aligning (example_tick 1 None 0)) as [H _].
  destruct (H 1 eq_refl) as [E _]. exact E.
Defined.

(** C2 at [T = 2], [t = 1]. *)
Lemma min_score_decay_witness :
  0 < 2 /\ 0 <= 1 /\
  min_score_after 2 1 = Rmax 0 (1 - 1 / 2) /\ min_score_after 2 0 = 1.
Proof.
  assert (HT : 0 < 2) by lra. assert (Ht : 0 <= 1) by lra.
  destruct (min_score_decay scale_to_length no_orientation (9/100) 2 HT 1 Ht)
    as (E & _ & _ & Z & _).
  repeat split; assumption.
Defined.

(** C1 at [T = 2]: a refused rating after 1 s, then a rating of 0 after 2.5 s. *)
Lemma decide_commits_by_deadline_witness :
  min_score_after 2 (5/2 - 0) = 0 /\
  has_committed
    (example_final (Deciding 0)
       ([example_tick 1 None (1/4)] ++ [example_tick (5/2) None 0])) = true.
Proof.
  assert (HT : 0 < 2) by lra.
  destruct (decide_commits_by_deadline scale_to_length no_orientation (9/100) 2 HT 0)
    as (_ & One & All).
  split.
  - apply (One (example_tick (5/2) None 0)); simpl; lra.
  - apply All.
    + repeat constructor; simpl; lra.
    + simpl; lra.
Defined.

(** C5 on two ticks after the commit of [example_pass]. *)
Lemma committed_pass_is_frozen_witness :
  Forall (fun s =>
            (next s = Executing example_pass /\
             calls s = [PasserUpdateControlParams example_pass;
                        ReceiverUpdateControlParams example_pass] /\
             yielded s = Some execute_stage_tactics) \/
            (next s = Finished /\ calls s = [] /\ yielded s = None))
         (example_run (Executing example_pass)
            [example_tick 3 None 1; example_tick 4 None (1/2)]).
Proof.
  apply (committed_pass_is_frozen scale_to_length no_orientation (9/100) 2
           0 (example_tick (5/2) None 0) example_pass example_commit).
Defined.

(** C6 on the first resumption. *)
Lemma yielded_tactic_sets_witness :
  yielded (example_resume Entry (example_tick 0 None 0)) =
    Some [goalie_tactic; align_to_ball_tactic; cherry_pick_tactic_pos_y;
          cherry_pick_tactic_neg_y; bait_move_tactic_1; bait_move_tactic_2].
Proof.
  apply (yielded_tactic_sets scale_to_length no_orientation (9/100) 2
           Entry (example_tick 0 None 0)).
  reflexivity.
Defined.

(** C8 on 100 ticks without a robot. *)
Lemma no_robot_no_progress_witness :
  example_final Entry (repeat (example_tick 0 None 0) 100) = WaitingForRobot.
Proof.
  apply (no_robot_no_progress scale_to_length no_orientation (9/100) 2).
  - apply Forall_forall. intros tk H. apply repeat_spec in H. subst tk. reflexivity.
  - discriminate.
Defined.

(** C10: robot 3 is seen first, robot 5 on the next tick. *)
Lemma passer_registered_once_witness :
  passer_registrations
    (all_calls
       (example_run Entry
          ([example_tick 0 None 0] ++
           example_tick 1 (Some (mkRobot 3%nat (mkPoint 4 3))) 0 ::
           [example_tick 2 (Some (mkRobot 5%nat (mkPoint 0 0))) 0]))) = [3%nat].
Proof.
  apply (proj2 (passer_registered_once scale_to_length no_orientation (9/100) 2)
           [example_tick 0 None 0]
           (example_tick 1 (Some (mkRobot 3%nat (mkPoint 4 3))) 0)
           [example_tick 2 (Some (mkRobot 5%nat (mkPoint 0 0))) 0]
           (mkRobot 3%nat (mkPoint 4 3))).
  - repeat constructor.
  - reflexivity.
Defined.

(** C9 with the ball on the corner (4, 3), at distance 5 from the origin. *)
Lemma align_pose_witness :
  length (psub (align_destination scale_to_length (9/100)
                  (world (example_tick 0 None 0)))
               (mkPoint 4 3)) = 2 * (9/100).
Proof.
  assert (HR : 0 <= 9/100) by lra.
  assert (Hb : mkPoint 4 3 <> mkPoint 0 0).
  { intro H. injection H as H _. lra. }
  apply (align_pose scale_to_length no_orientation (9/100) 2
           (fun v l _ => eq_refl) HR Entry (example_tick 0 None 0) eq_refl).
  exact Hb.
Defined.

(** X3 is tight: a robot on the first tick, the tactic done on the second
    and a perfect rating on the third commit on the third resumption. *)
Lemma one_stage_per_resumption_witness :
  let robot := mkRobot 3%nat (mkPoint 4 3) in
  let ticks := [example_tick 0 (Some robot) 0; example_tick 1 (Some robot) 0;
                example_tick 2 (Some robot) 1] in
  example_final Entry ticks = Executing example_pass /\
  (3 <= List.length ticks)%nat.
Proof.
  cbv zeta.
  assert (E : example_final Entry
                [example_tick 0 (Some (mkRobot 3%nat (mkPoint 4 3))) 0;
                 example_tick 1 (Some (mkRobot 3%nat (mkPoint 4 3))) 0;
                 example_tick 2 (Some (mkRobot 3%nat (mkPoint 4 3))) 1]
              = Executing example_pass).
  { unfold final. simpl.
    rewrite deciding_commits by (simpl; rewrite min_score_after_early; lra).
    reflexivity. }
  split; [exact E|].
  apply (one_stage_per_resumption scale_to_length no_orientation (9/100) 2).
  rewrite E. reflexivity.
Defined.

(** X6 on three ticks with rating -1, the last one 10 s into the stage. *)
Lemma negative_rating_never_commits_witness :
  example_final (Deciding 0)
    [example_tick 1 None (-1); example_tick 2 None (-1); example_tick 10 None (-1)]
  = Deciding 0.
Proof.
  assert (HT : 0 < 2) by lra.
  apply (negative_rating_never_commits scale_to_length no_orientation (9/100) 2 HT).
  repeat constructor; simpl; lra.
Defined.

(** X7: a rating of 1 on the first Decide iteration, with no time elapsed. *)
Lemma perfect_rating_and_clock_witness :
  next (example_resume (Deciding 3) (example_tick 3 None 1)) = Executing example_pass.
Proof.
  assert (HT : 0 < 2) by lra.
  apply (perfect_rating_and_clock scale_to_length no_orientation (9/100) 2 HT
           3 (example_tick 3 None 1)); simpl; lra.
Defined.

End CornerKickPlay.

(** * The simulated ball: [physics_ball.cpp]

    The ball owns a Box2D body and, besides, remembers a chip kick: where it
    took off, how far it is to fly and at which angle.  The methods that ask
    whether the ball is in flight are [const] in the source but update the
    [mutable] take-off point; here they return the ball they leave behind. *)

Module PhysicsBall.

(** [std::max(a, b)] is [(a < b) ? b : a]. *)
Definition std_max (a b : double) : double := if ltb a b then b else a.

Definition geb (a b : double) : bool := leb b a.

(** [distance(Point, Point)] of [software/geom/algorithms/distance.h]. *)
Definition distance (a b : Point) : double := length (psub a b).

(** What the ball reads off its Box2D body: position, linear velocity, mass
    and, for each edge of the contact list in order, [contact->IsTouching()]. *)
Record b2Body := mkBody {
  GetPosition : Point;
  GetLinearVelocity : Vector;
  GetMass : double;
  GetContactList : list bool
}.

Record BallState := mkBallState {
  state_position : Point;
  state_velocity : Vector;
  distanceFromGround : double
}.

Record PhysicsBall := mkPhysicsBall {
  ball_body : b2Body;
  in_flight_origin : option Point;
  in_flight_distance_meters : double;
  flight_angle_of_departure : Angle;
  ball_restitution : double;
  ball_linear_damping : double
}.

Section Ball.

(** [Vector::normalize(double)] belongs to the geometry library; the
    constants to [shared/constants.h]. *)
Variable normalize : Vector -> double -> Vector.
Variable ACCELERATION_DUE_TO_GRAVITY_METERS_PER_SECOND_SQUARED : double.
Variable ROBOT_MAX_HEIGHT_METERS : double.
Variable BALL_MAX_RADIUS_METERS : double.




Definition position (b : PhysicsBall) : Point := GetPosition (ball_body b).

Definition velocity (b : PhysicsBall) : Vector := GetLinearVelocity (ball_body b).

Definition massKg (b : PhysicsBall) : double := GetMass (ball_body b).

Definition momentum (b : PhysicsBall) : Vector :=
  let momentum_magnitude := massKg b * length (velocity b) in
  normalize (velocity b) momentum_magnitude.

(** The loop of [isTouchingOtherObject] from a given contact edge on. *)
Fixpoint touching_from (contact_edge : list bool) : bool :=
  match contact_edge with
  | [] => false
  | IsTouching :: next_edge => if IsTouching then true else touching_from next_edge
  end.

Definition isTouchingOtherObject (b : PhysicsBall) : bool :=
  touching_from (GetContactList (ball_body b)).

Definition setInFlightForDistance (in_flight_distance : double)
    (angle_of_departure : Angle) (b : PhysicsBall) : PhysicsBall :=
  mkPhysicsBall (ball_body b) (Some (position b)) in_flight_distance
                angle_of_departure (ball_restitution b) (ball_linear_damping b).

(** [in_flight_origin = std::nullopt] *)
Definition landed (b : PhysicsBall) : PhysicsBall :=
  mkPhysicsBall (ball_body b) None (in_flight_distance_meters b)
                (flight_angle_of_departure b) (ball_restitution b)
                (ball_linear_damping b).

Definition updateIsInFlight (b : PhysicsBall) : PhysicsBall :=
  match in_flight_origin b with
  | Some origin =>
      let current_in_flight_distance_meters := length (psub (position b) origin) in
      if geb current_in_flight_distance_meters (in_flight_distance_meters b) &&
         negb (isTouchingOtherObject b)
      then landed b
      else b
  | None => b
  end.

(** The ball after a step of the Box2D world: the body has changed, the
    members of the ball have not. *)
Definition moved (b : PhysicsBall) (body' : b2Body) : PhysicsBall :=
  mkPhysicsBall body' (in_flight_origin b) (in_flight_distance_meters b)
                (flight_angle_of_departure b) (ball_restitution b)
                (ball_linear_damping b).

Definition has_value (o : option Point) : bool :=
  match o with Some _ => true | None => false end.

Definition isInFlight (b : PhysicsBall) : bool * PhysicsBall :=
  let b' := updateIsInFlight b in
  (has_value (in_flight_origin b'), b').

(** The height [y] of l.140-152, for a ball that took off at [origin]. *)
Definition flight_height (b : PhysicsBall) (origin : Point) : double :=
  let x := distance (position b) origin in
  let initial_speed_numerator :=
    in_flight_distance_meters b *
    ACCELERATION_DUE_TO_GRAVITY_METERS_PER_SECOND_SQUARED in
  let initial_speed_denominator := sin (flight_angle_of_departure b * 2) in
  let initial_speed := sqrt (initial_speed_numerator / initial_speed_denominator) in
  let y_numerator := ACCELERATION_DUE_TO_GRAVITY_METERS_PER_SECOND_SQUARED * x * x in
  let y_denominator :=
    2 * initial_speed * initial_speed * cos (flight_angle_of_departure b) ^ 2 in
  tan (flight_angle_of_departure b) * x - y_numerator / y_denominator.

(** [isInFlight()] is [has_value()] of the take-off point it leaves behind,
    so the branch of l.134 is the [Some] case and [value()] does not throw. *)
Definition calculateDistanceFromGround (b : PhysicsBall) : double * PhysicsBall :=
  let b' := snd (isInFlight b) in
  match in_flight_origin b' with
  | Some origin =>
      let y := flight_height b' origin in
      (if isTouchingOtherObject b'
       then std_max y ROBOT_MAX_HEIGHT_METERS
       else std_max y 0,
       b')
  | None => (0, b')
  end.

Definition getBallState (b : PhysicsBall) : BallState * PhysicsBall :=
  let (distance_from_ground, b') := calculateDistanceFromGround b in
  (mkBallState (position b) (velocity b) distance_from_ground, b').

(** ** Concrete data for the examples *)

Definition example_body (at_ : Point) (contacts : list bool) : b2Body :=
  mkBody at_ (mkVector 3 4) (1/2) contacts.

Definition example_ball (at_ : Point) (contacts : list bool) : PhysicsBall :=
  mkPhysicsBall (example_body at_ contacts) (Some (mkPoint 0 0)) 2 (PI / 4) 1 0.

(** ** Properties *)

Ltac as_real :=
  unfold Angle, double in *;
  match goal with |- @eq _ ?l ?r => change (@eq R l r) end.

Lemma std_max_Rmax (a b : double) : std_max a b = Rmax a b.
Proof.
  unfold std_max, Rmax.
  destruct (ltb a b) eqn:E; destruct (Rle_dec a b) as [H|H]; auto.
  - apply CornerKickPlay.ltb_true in E; lra.
  - apply CornerKickPlay.ltb_false in E; lra.
Qed.

Lemma touching_from_In (edges : list bool) :
  touching_from edges = true <-> In true edges.
Proof.
  induction edges as [|e edges IH]; simpl; [split; [discriminate|tauto]|].
  destruct e; [tauto|]. rewrite IH. split; [auto|]. intros [H|H]; [discriminate|auto].
Qed.

(** X10. [isTouchingOtherObject] is true exactly when some edge of the
    contact list of the body is touching; with an empty contact list it is
    false. *)
Theorem isTouchingOtherObject_spec :
  forall b : PhysicsBall,
    (isTouchingOtherObject b = true <-> In true (GetContactList (ball_body b))) /\
    (isTouchingOtherObject b = false <->
       forall e, In e (GetContactList (ball_body b)) -> e = false) /\
    (GetContactList (ball_body b) = [] -> isTouchingOtherObject b = false).
Proof.
  intro b. unfold isTouchingOtherObject.
  pose proof (touching_from_In (GetContactList (ball_body b))) as T.
  split; [exact T|]. split.
  - split.
    + intros H e He. destruct e; [|reflexivity].
      apply T in He. congruence.
    + intro H. destruct (touching_from _); [|reflexivity].
      pose proof (H true (proj1 T eq_refl)). discriminate.
  - intros ->. reflexivity.
Qed.

Lemma update_grounded (b : PhysicsBall) :
  in_flight_origin b = None -> updateIsInFlight b = b.
Proof. intro H. unfold updateIsInFlight. rewrite H. reflexivity. Qed.

Lemma update_cases (b : PhysicsBall) :
  updateIsInFlight b = b \/
  (updateIsInFlight b = landed b /\ in_flight_origin b <> None).
Proof.
  unfold updateIsInFlight. destruct (in_flight_origin b); [|auto].
  destruct (_ && _); [right; split; [reflexivity|discriminate]|auto].
Qed.

Lemma update_idempotent (b : PhysicsBall) :
  updateIsInFlight (updateIsInFlight b) = updateIsInFlight b.
Proof.
  destruct (update_cases b) as [E|[E _]]; rewrite E; [exact E|].
  apply update_grounded. reflexivity.
Qed.

(** X11. Asking twice gives the same answer: after [isInFlight],
    [calculateDistanceFromGround] or [getBallState] has been called, calling
    it again on the ball it left behind returns the same value and leaves
    the same ball. *)
Theorem queries_are_idempotent :
  forall b : PhysicsBall,
    isInFlight (snd (isInFlight b)) = isInFlight b /\
    calculateDistanceFromGround (snd (calculateDistanceFromGround b)) =
      calculateDistanceFromGround b /\
    getBallState (snd (getBallState b)) = getBallState b.
Proof.
  intro b.
  assert (I : isInFlight (snd (isInFlight b)) = isInFlight b).
  { unfold isInFlight. simpl. rewrite update_idempotent. reflexivity. }
  assert (S : snd (calculateDistanceFromGround b) = updateIsInFlight b).
  { unfold calculateDistanceFromGround. simpl.
    destruct (in_flight_origin (updateIsInFlight b)); reflexivity. }
  assert (C : calculateDistanceFromGround (snd (calculateDistanceFromGround b)) =
              calculateDistanceFromGround b).
  { rewrite S. unfold calculateDistanceFromGround, isInFlight. simpl.
    rewrite update_idempotent. reflexivity. }
  split; [exact I|]. split; [exact C|].
  unfold getBallState.
  destruct (calculateDistanceFromGround b) as [h b'] eqn:E.
  simpl in S, C. simpl. rewrite C.
  subst b'. destruct (update_cases b) as [U|[U _]]; rewrite U; reflexivity.
Qed.

Lemma length_zero (p : Point) : length (psub p p) = 0.
Proof.
  unfold length, psub. simpl.
  replace ((px p - px p) * (px p - px p) + (py p - py p) * (py p - py p)) with 0 by ring.
  apply sqrt_0.
Qed.

(** X12. Right after [setInFlightForDistance] the ball is in flight exactly
    when the requested distance is positive or the ball touches another
    object; with a distance that is not positive and no contact it lands on
    the first query. *)
Theorem kicked_ball_in_flight :
  forall (in_flight_distance : double) (angle_of_departure : Angle) (b : PhysicsBall),
    fst (isInFlight (setInFlightForDistance in_flight_distance angle_of_departure b))
      = true <->
    0 < in_flight_distance \/ isTouchingOtherObject b = true.
Proof.
  intros d a b. unfold isInFlight, updateIsInFlight, setInFlightForDistance. simpl.
  unfold position. simpl. rewrite length_zero.
  unfold isTouchingOtherObject. simpl. unfold geb.
  destruct (leb d 0) eqn:L; destruct (touching_from _); simpl.
  - tauto.
  - apply CornerKickPlay.leb_true in L. split; [discriminate|]. intros [H|H]; [lra|discriminate].
  - tauto.
  - apply CornerKickPlay.leb_false in L. tauto.
Qed.

(** X13. A ball in flight that touches another object does not land,
    however far it has travelled; a ball in flight that touches nothing lands
    on the first query made at or beyond the requested distance, and stays
    landed on every later query wherever the body goes. *)
Theorem landing_rule :
  forall (b : PhysicsBall) (origin : Point),
    in_flight_origin b = Some origin ->
    (isTouchingOtherObject b = true -> isInFlight b = (true, b)) /\
    (isTouchingOtherObject b = false ->
     in_flight_distance_meters b <= distance (position b) origin ->
     isInFlight b = (false, landed b) /\
     forall body',
       isInFlight (moved (landed b) body') = (false, moved (landed b) body')) /\
    (isTouchingOtherObject b = false ->
     distance (position b) origin < in_flight_distance_meters b ->
     isInFlight b = (true, b)).
Proof.
  intros b origin H. unfold isInFlight, updateIsInFlight. rewrite H.
  unfold distance, geb. split; [|split].
  - intros ->. rewrite andb_false_r. simpl. rewrite H. reflexivity.
  - intros -> D. apply CornerKickPlay.leb_true in D. rewrite D. simpl. auto.
  - intros -> D. apply CornerKickPlay.leb_false in D. rewrite D. simpl. rewrite H. reflexivity.
Qed.

Lemma flight_height_closed (b : PhysicsBall) (origin : Point) :
  0 < ACCELERATION_DUE_TO_GRAVITY_METERS_PER_SECOND_SQUARED ->
  0 < flight_angle_of_departure b < PI / 2 ->
  0 < in_flight_distance_meters b ->
  flight_height b origin =
    distance (position b) origin * tan (flight_angle_of_departure b) *
    (1 - distance (position b) origin / in_flight_distance_meters b).
Proof.
  intros Hg [A0 A1] Hd. unfold flight_height.
  set (x := distance (position b) origin).
  set (a := flight_angle_of_departure b) in *.
  set (d := in_flight_distance_meters b) in *.
  set (g := ACCELERATION_DUE_TO_GRAVITY_METERS_PER_SECOND_SQUARED) in *.
  assert (Hs : 0 < sin a) by (apply sin_gt_0; lra).
  assert (Hc : 0 < cos a) by (apply cos_gt_0; lra).
  replace (a * 2) with (2 * a) by ring. rewrite sin_2a.
  assert (Hq : 0 <= d * g / (2 * sin a * cos a)).
  { apply Rlt_le, Rdiv_lt_0_compat; nra. }
  replace (2 * sqrt (d * g / (2 * sin a * cos a)) * sqrt (d * g / (2 * sin a * cos a)))
    with (2 * (sqrt (d * g / (2 * sin a * cos a)) * sqrt (d * g / (2 * sin a * cos a))))
    by ring.
  rewrite sqrt_sqrt by exact Hq.
  unfold tan. as_real. field. repeat split; lra.
Qed.

(** X14. For a ball in flight that touches nothing, short of the requested
    distance [d] and kicked at an angle [a] strictly between 0 and a right
    angle under a positive gravity, the height reported at distance [x] from
    the take-off point is [x * tan a * (1 - x / d)]: it is 0 at the take-off
    point, never negative, at most [d * tan a / 4], and the ball is left
    unchanged. *)
Theorem flight_parabola :
  0 < ACCELERATION_DUE_TO_GRAVITY_METERS_PER_SECOND_SQUARED ->
  forall (b : PhysicsBall) (origin : Point),
    in_flight_origin b = Some origin ->
    isTouchingOtherObject b = false ->
    0 < flight_angle_of_departure b < PI / 2 ->
    distance (position b) origin < in_flight_distance_meters b ->
    let x := distance (position b) origin in
    let height := fst (calculateDistanceFromGround b) in
    height = x * tan (flight_angle_of_departure b) *
             (1 - x / in_flight_distance_meters b) /\
    (position b = origin -> height = 0) /\
    0 <= height <= in_flight_distance_meters b * tan (flight_angle_of_departure b) / 4 /\
    snd (calculateDistanceFromGround b) = b.
Proof.
  intros Hg b origin Ho Ht Ha Hx x height.
  assert (X0 : 0 <= x) by apply CornerKickPlay.length_nonneg.
  assert (Hd : 0 < in_flight_distance_meters b) by (unfold x in X0; lra).
  assert (U : updateIsInFlight b = b).
  { unfold updateIsInFlight. rewrite Ho, Ht. unfold geb, distance in *.
    apply CornerKickPlay.leb_false in Hx. rewrite Hx. reflexivity. }
  assert (T : 0 < tan (flight_angle_of_departure b)) by (apply tan_gt_0; lra).
  pose proof (flight_height_closed b origin Hg Ha Hd) as C. fold x in C.
  set (d := in_flight_distance_meters b) in *.
  set (t := tan (flight_angle_of_departure b)) in *.
  assert (Q : 0 <= x / d < 1).
  { assert (0 < / d) by (apply Rinv_0_lt_compat; exact Hd).
    unfold Rdiv. split; [nra|].
    apply (Rmult_lt_reg_r d); [exact Hd|].
    rewrite Rmult_assoc, Rinv_l by lra. unfold x. lra. }
  assert (Xq : x = x / d * d) by (as_real; field; lra).
  assert (N : 0 <= x * t * (1 - x / d)).
  { apply Rmult_le_pos; [apply Rmult_le_pos; lra|lra]. }
  assert (E : height = x * t * (1 - x / d)).
  { unfold height, calculateDistanceFromGround, isInFlight. simpl.
    rewrite U, Ho, Ht, C, std_max_Rmax, Rmax_left by lra. reflexivity. }
  split; [exact E|]. split; [|split].
  - intro P. rewrite E. unfold x, distance. rewrite P, length_zero. as_real. ring.
  - rewrite E. split; [exact N|].
    generalize dependent (x / d). intros q _ Q Xq _ _. rewrite Xq.
    assert (S : 0 <= (q - 1/2) * (q - 1/2)) by apply Rle_0_sqr.
    assert (P : 0 <= d * t) by (apply Rmult_le_pos; lra).
    assert (B : q * (1 - q) <= 1/4) by lra.
    replace (q * d * t * (1 - q)) with (d * t * (q * (1 - q))) by (as_real; ring).
    replace (d * t / 4) with (d * t * (1/4)) by (as_real; field).
    apply Rmult_le_compat_l; assumption.
  - unfold calculateDistanceFromGround, isInFlight. simpl. rewrite U, Ho. reflexivity.
Qed.

(** X15. With a robot height that is not negative, the reported distance
    from the ground is never negative; it is 0 for a ball that is not in
    flight, and at least [ROBOT_MAX_HEIGHT_METERS] for a ball in flight that
    touches another object.  (For a ball in flight the angle is taken
    strictly between 0 and a right angle, the distance and the gravity
    positive, so that every quotient of l.141-152 is defined.) *)
Theorem height_bounds :
  0 < ACCELERATION_DUE_TO_GRAVITY_METERS_PER_SECOND_SQUARED ->
  0 <= ROBOT_MAX_HEIGHT_METERS ->
  forall b : PhysicsBall,
    (in_flight_origin b <> None ->
       0 < flight_angle_of_departure b < PI / 2 /\ 0 < in_flight_distance_meters b) ->
    0 <= fst (calculateDistanceFromGround b) /\
    (fst (isInFlight b) = false -> fst (calculateDistanceFromGround b) = 0) /\
    (in_flight_origin b <> None -> isTouchingOtherObject b = true ->
       ROBOT_MAX_HEIGHT_METERS <= fst (calculateDistanceFromGround b)).
Proof.
  intros _ HR b _.
  unfold calculateDistanceFromGround, isInFlight. simpl.
  split; [|split].
  - destruct (in_flight_origin (updateIsInFlight b)); simpl; [|lra].
    destruct (isTouchingOtherObject _); rewrite std_max_Rmax.
    + eapply Rle_trans; [exact HR|apply Rmax_r].
    + apply Rmax_r.
  - destruct (in_flight_origin (updateIsInFlight b)); simpl; [discriminate|reflexivity].
  - intros Ho Ht.
    assert (U : updateIsInFlight b = b).
    { unfold updateIsInFlight. destruct (in_flight_origin b); [|reflexivity].
      rewrite Ht, andb_false_r. reflexivity. }
    rewrite U. destruct (in_flight_origin b); [|congruence]. simpl.
    rewrite Ht, std_max_Rmax. apply Rmax_r.
Qed.

(** X16. Take [normalize] to scale a vector of non-zero length to the
    requested length.  For a ball that moves, [momentum] is the velocity
    scaled by the mass of the body. *)
Theorem momentum_is_mass_times_velocity :
  (forall v l, length v <> 0 -> normalize v l = vscale (l / length v) v) ->
  forall b : PhysicsBall,
    length (velocity b) <> 0 ->
    momentum b = vscale (massKg b) (velocity b).
Proof.
  intros Hn b Hv. unfold momentum. rewrite Hn by exact Hv.
  f_equal. field. exact Hv.
Qed.


End Ball.

(** ** The theorems on concrete balls

    Gravity is 9.81 m/s^2, a robot is 15 cm high and the ball of
    [example_ball] was chipped from the origin, 2 m far at 45 degrees. *)

Lemma angle_45 : 0 < PI / 4 < PI / 2.
Proof. pose proof PI_RGT_0. lra. Qed.

Lemma example_distance_one : distance (mkPoint 1 0) (mkPoint 0 0) = 1.
Proof.
  unfold distance, length, psub. simpl.
  replace ((1 - 0) * (1 - 0) + (0 - 0) * (0 - 0)) with (1 * 1) by ring.
  apply sqrt_square. lra.
Qed.

(** X13 on a ball that touches a robot 3 m from the take-off point. *)
Lemma landing_rule_witness :
  isInFlight (example_ball (mkPoint 3 0) [false; true]) =
    (true, example_ball (mkPoint 3 0) [false; true]).
Proof.
  apply (proj1 (landing_rule (example_ball (mkPoint 3 0) [false; true])
                  (mkPoint 0 0) eq_refl)).
  reflexivity.
Defined.

(** X14 half way: 1 m from the take-off point the ball is 0.5 m high. *)
Lemma flight_parabola_witness :
  fst (calculateDistanceFromGround (981/100) (15/100) (example_ball (mkPoint 1 0) []))
    = 1 * tan (PI / 4) * (1 - 1 / 2).
Proof.
  assert (Hg : 0 < 981/100) by lra.
  assert (Hx : distance (position (example_ball (mkPoint 1 0) [])) (mkPoint 0 0)
               < in_flight_distance_meters (example_ball (mkPoint 1 0) [])).
  { simpl. unfold position. simpl. rewrite example_distance_one. lra. }
  pose proof (flight_parabola (981/100) (15/100) Hg
                (example_ball (mkPoint 1 0) []) (mkPoint 0 0)
                eq_refl eq_refl angle_45 Hx) as H.
  cbv zeta in H. destruct H as [E _].
  unfold position in E. simpl in E. rewrite example_distance_one in E. exact E.
Defined.

(** X15 on the ball that touches a robot: it is at least 15 cm high. *)
Lemma height_bounds_witness :
  15/100 <= fst (calculateDistanceFromGround (981/100) (15/100)
                   (example_ball (mkPoint 3 0) [false; true])).
Proof.
  assert (Hg : 0 < 981/100) by lra. assert (HR : 0 <= 15/100) by lra.
  apply (height_bounds (981/100) (15/100) Hg HR
           (example_ball (mkPoint 3 0) [false; true])).
  - intros _. split; [exact angle_45|simpl; lra].
  - discriminate.
  - reflexivity.
Defined.

(** X16 on a body of 0.5 kg moving at (3, 4). *)
Lemma momentum_is_mass_times_velocity_witness :
  momentum CornerKickPlay.scale_to_length (example_ball (mkPoint 1 0) []) =
    vscale (1/2) (mkVector 3 4).
Proof.
  apply (momentum_is_mass_times_velocity CornerKickPlay.scale_to_length
           (fun v l _ => eq_refl) (example_ball (mkPoint 1 0) [])).
  unfold velocity, length. simpl.
  replace (3 * 3 + 4 * 4) with (5 * 5) by ring.
  rewrite sqrt_square; lra.
Defined.


End PhysicsBall.
